(** * Immich OCR browser: the automation loop, its text normaliser and its
      crop-location memory, embedded from the Python sources

    Sources embedded here (V2buttonrizedImmichOCR/):
    - [ocr_processor.py]: [OCRProcessor.preprocess_image], [extract_text],
      [_filter_text_with_reply_pattern], [validate_text_quality];
    - [config.py]: [OCRConfig], [OCRLocationConfig];
    - [main_app.py]: [OCRWorkerThread], the loop methods of [MainWindow];
    - [web_engine.py]: [inject_text_with_automation] (the page script it
      dispatches), [_restore_last_crop_location], [_save_crop_location].

    Conventions.  A Python [str] is a list of characters with code points
    0 to 255; on these [str.isspace], [str.upper], case-insensitive matching
    and the classes [\s] and [[^\n\r]] of [re] are the functions of [PyStr]
    and [Re] below ([upper] gives code points, since three of these
    characters have capitals beyond 255 or of two letters).
    Python integers are [Z].  Pillow, pytesseract and Qt are collaborators of
    the program, not part of it: what the program calls of them is a field
    of the class [Collaborators], and [QRect] is modelled after Qt. *)

From Stdlib Require Import List Ascii String ZArith QArith Lia Bool DecimalString.
Import ListNotations.
Close Scope Q_scope.

Set Implicit Arguments.

(* ================================================================== *)
(** ** Python strings *)
(* ================================================================== *)

Module PyStr.

Definition str := list ascii.

(** A literal of the source. *)
Definition txt (s : string) : str := list_ascii_of_string s.

Definition code (c : ascii) : N := N_of_ascii c.

(** [str.isspace], also the class [\s] of [re] and what [strip] and
    [split] take for white space: TAB, LF, VT, FF, CR, FS, GS, RS, US, SPACE,
    NEXT LINE (133), NO-BREAK SPACE (160). *)
Definition isspace (c : ascii) : bool :=
  let n := code c in
  (((9 <=? n) && (n <=? 13)) || ((28 <=? n) && (n <=? 32))
   || (n =? 133) || (n =? 160))%N.

(** [c.upper()], as code points: [a]-[z] and the Latin-1 small letters
    (224-254 but the division sign 247) lose 32; the micro sign (181) gives
    GREEK CAPITAL LETTER MU (924), sharp s (223) gives [SS], y with
    diaeresis (255) gives U+0178 (376). *)
Definition upper_points (c : ascii) : list N :=
  let n := code c in
  (if (97 <=? n) && (n <=? 122) then [n - 32]
   else if n =? 181 then [924]
   else if n =? 223 then [83; 83]
   else if (224 <=? n) && (n <=? 254) && negb (n =? 247) then [n - 32]
   else if n =? 255 then [376]
   else [n])%N.

Definition lower_char (c : ascii) : ascii :=
  let n := code c in
  if ((65 <=? n) && (n <=? 90))%N then ascii_of_N (n + 32) else c.

(** [s.upper()] *)
Definition upper (s : str) : list N := flat_map upper_points s.

(** [len(s)] *)
Definition len (s : str) : Z := Z.of_nat (List.length s).

(** Truth value of a string: [if s], [not s]. *)
Definition truthy (s : str) : bool :=
  match s with [] => false | _ :: _ => true end.

(** [s.lstrip()], [s.rstrip()], [s.strip()] *)
Fixpoint lstrip (s : str) : str :=
  match s with
  | [] => []
  | c :: s' => if isspace c then lstrip s' else s
  end.

Definition rstrip (s : str) : str := rev (lstrip (rev s)).

Definition strip (s : str) : str := rstrip (lstrip s).

(** [s.startswith(p)], [s.endswith(p)] *)
Fixpoint startswith (s p : str) {struct p} : bool :=
  match p, s with
  | [], _ => true
  | _ :: _, [] => false
  | a :: p', b :: s' => Ascii.eqb a b && startswith s' p'
  end.

Definition endswith (s p : str) : bool := startswith (rev s) (rev p).

(** [needle in hay] *)
Fixpoint contains (needle hay : str) : bool :=
  startswith hay needle ||
  match hay with
  | [] => false
  | _ :: hay' => contains needle hay'
  end.

(** The same on code points, for [p.upper() in s.upper()]. *)
Fixpoint startswith_points (s p : list N) {struct p} : bool :=
  match p, s with
  | [], _ => true
  | _ :: _, [] => false
  | a :: p', b :: s' => N.eqb a b && startswith_points s' p'
  end.

Fixpoint contains_points (needle hay : list N) : bool :=
  startswith_points hay needle ||
  match hay with
  | [] => false
  | _ :: hay' => contains_points needle hay'
  end.

(** [s.replace(a, b)] for one-character [a] and [b] *)
Definition replace_char (a b : ascii) (s : str) : str :=
  map (fun c => if Ascii.eqb c a then b else c) s.

(** [s.split()]: the maximal runs of non-space characters, in order.
    [cur] holds the run being read, reversed. *)
Fixpoint split_from (cur : str) (s : str) : list str :=
  match s with
  | [] => match cur with [] => [] | _ :: _ => [rev cur] end
  | c :: s' =>
      if isspace c
      then match cur with
           | [] => split_from [] s'
           | _ :: _ => rev cur :: split_from [] s'
           end
      else split_from (c :: cur) s'
  end.

Definition split (s : str) : list str := split_from [] s.

(** [sep.join(l)] *)
Fixpoint join (sep : str) (l : list str) : str :=
  match l with
  | [] => []
  | [w] => w
  | w :: l' => w ++ sep ++ join sep l'
  end.

(** [s[:-k]] *)
Definition drop_last (k : nat) (s : str) : str := firstn (List.length s - k) s.

(** [str(n)] for an integer *)
Definition str_of_int (n : Z) : str := txt (NilZero.string_of_int (Z.to_int n)).

Definition LF : ascii := ascii_of_N 10.
Definition CR : ascii := ascii_of_N 13.
Definition SP : ascii := ascii_of_N 32.

(** [a == b] *)
Definition str_eqb (a b : str) : bool :=
  (List.length a =? List.length b)%nat && startswith a b.

End PyStr.

(* ================================================================== *)
(** ** The fragment of [re] the normaliser uses *)
(* ================================================================== *)

(** Both patterns of [_filter_text_with_reply_pattern] are sequences of
    one-character classes under a quantifier, one of them inside group 1.
    [re] matches such a sequence by backtracking: a greedy quantifier tries
    the largest feasible number of repetitions first and gives them back one
    by one, a lazy quantifier ([?]-suffixed) tries the smallest number first
    and takes one more at a time; the first complete match wins.
    [re.search] tries the start positions from the left. *)

Module Re.
Import PyStr.

Record item := Item {
  cls : ascii -> bool;     (* the character class *)
  lo : nat;                (* minimum number of repetitions *)
  hi : option nat;         (* maximum, [None] for unbounded *)
  greedy : bool;           (* [false] for a lazy quantifier *)
  grp : bool               (* inside the capturing group *)
}.

Definition pattern := list item.

(** Length of the longest prefix of [s] in class [p]. *)
Fixpoint span (p : ascii -> bool) (s : str) : nat :=
  match s with
  | [] => 0
  | c :: s' => if p c then S (span p s') else 0
  end.

(** Largest number of repetitions of [it] possible at the head of [s]. *)
Definition top (it : item) (s : str) : nat :=
  match hi it with
  | Some h => Nat.min h (span (cls it) s)
  | None => span (cls it) s
  end.

(** The repetition counts in the order the matcher tries them. *)
Definition counts (it : item) (s : str) : list nat :=
  let asc := seq (lo it) (S (top it s) - lo it) in
  if greedy it then rev asc else asc.

Fixpoint first_some {A B : Type} (f : A -> option B) (l : list A) : option B :=
  match l with
  | [] => None
  | a :: l' => match f a with Some b => Some b | None => first_some f l' end
  end.

(** Match [p] at the head of [s]; the result is the text of group 1. *)
Fixpoint match_here (p : pattern) (s : str) : option str :=
  match p with
  | [] => Some []
  | it :: p' =>
      first_some
        (fun n =>
           match match_here p' (skipn n s) with
           | Some g => Some ((if grp it then firstn n s else []) ++ g)
           | None => None
           end)
        (counts it s)
  end.

(** [re.search(p, s)]: [m.group(1)] of the leftmost match, [None] if no
    position matches. *)
Fixpoint search (p : pattern) (s : str) : option str :=
  match match_here p s with
  | Some g => Some g
  | None => match s with
            | [] => None
            | _ :: s' => search p s'
            end
  end.

(** A literal character under [re.I]. *)
Definition lit_ci (c : ascii) : item :=
  Item (fun x => Ascii.eqb (lower_char x) (lower_char c)) 1 (Some 1) true false.

Definition literal_ci (s : string) : pattern := map lit_ci (txt s).

(** [\s+] *)
Definition spaces1 : item := Item isspace 1 None true false.

(** [[^\n\r]] *)
Definition not_newline (c : ascii) : bool :=
  negb (Ascii.eqb c LF) && negb (Ascii.eqb c CR).

(** [([^\n\r]{lo,hi}?)] and [([^\n\r]{lo,hi})] *)
Definition run_lazy (lo hi : nat) : item := Item not_newline lo (Some hi) false true.
Definition run_greedy (lo hi : nat) : item := Item not_newline lo (Some hi) true true.

End Re.

(* ================================================================== *)
(** ** config.py *)
(* ================================================================== *)

Module Config.
Import PyStr.

Record OCRConfig := {
  tesseract_config : str;
  min_text_length : Z;
  excluded_patterns : list str;
  psm_sparse : Z;
  psm_filled : Z
}.

(** [OCRConfig()] with [__post_init__] applied. *)
Definition default_ocr : OCRConfig := {|
  tesseract_config := txt "--psm 6";
  min_text_length := 3;
  excluded_patterns := [txt "NO USER"; txt "CAPTCHA"; txt "LOADING"];
  psm_sparse := 11;
  psm_filled := 6
|}.

Definition set_min_text_length (c : OCRConfig) (n : Z) : OCRConfig := {|
  tesseract_config := tesseract_config c;
  min_text_length := n;
  excluded_patterns := excluded_patterns c;
  psm_sparse := psm_sparse c;
  psm_filled := psm_filled c
|}.

Record OCRLocationConfig := {
  remember_location : bool;
  last_crop_x : Z;
  last_crop_y : Z;
  last_crop_width : Z;
  last_crop_height : Z
}.

Definition default_location : OCRLocationConfig := {|
  remember_location := true;
  last_crop_x := 0;
  last_crop_y := 0;
  last_crop_width := 0;
  last_crop_height := 0
|}.

Definition save_location (c : OCRLocationConfig) (x y width height : Z)
  : OCRLocationConfig := {|
  remember_location := remember_location c;
  last_crop_x := x;
  last_crop_y := y;
  last_crop_width := width;
  last_crop_height := height
|}.

Definition has_saved_location (c : OCRLocationConfig) : bool :=
  remember_location c && (0 <? last_crop_width c)%Z && (0 <? last_crop_height c)%Z.

End Config.

(* ================================================================== *)
(** ** ocr_processor.py: the text normaliser *)
(* ================================================================== *)

Module Normalizer.
Import PyStr Re Config.

(** [r"Reply to\s+([^\n\r]{2,60}?)\.\.\."] with [re.I] *)
Definition reply_ellipsis : pattern :=
  literal_ci "Reply to" ++ [spaces1; run_lazy 2 60] ++ literal_ci "...".

(** [r"Reply to\s+([^\n\r]{2,60})"] with [re.I] *)
Definition reply_plain : pattern :=
  literal_ci "Reply to" ++ [spaces1; run_greedy 2 60].

Definition opt_truthy (u : option str) : bool :=
  match u with Some s => truthy s | None => false end.

(** The loop [for pattern in excluded_patterns: if pattern.upper() in
    raw_text.upper(): return ""]: [true] when some pattern returns. *)
Definition hits_excluded (pats : list str) (raw_text : str) : bool :=
  existsb (fun p => contains_points (upper p) (upper raw_text)) pats.

(** [user] after the two searches (lines 123-129). *)
Definition reply_user (raw : str) : option str :=
  match search reply_ellipsis raw with
  | Some g => Some (strip g)
  | None =>
      match search reply_plain raw with
      | Some g => Some (strip g)
      | None => None
      end
  end.

(** Lines 131-132. *)
Definition strip_ellipsis (user : option str) : option str :=
  match user with
  | Some u =>
      if truthy u && endswith u (txt "...")
      then Some (rstrip (drop_last 3 u))
      else user
  | None => None
  end.

(** Lines 135-137. *)
Definition first_three_words (raw : str) (user : option str) : option str :=
  if opt_truthy user then user
  else
    let tokens := split (replace_char LF SP raw) in
    match tokens with
    | [] => None
    | _ :: _ => Some (join (txt " ") (firstn 3 tokens))
    end.

(** [OCRProcessor._filter_text_with_reply_pattern] *)
Definition _filter_text_with_reply_pattern (cfg : OCRConfig) (raw_text : str) : str :=
  if negb (truthy raw_text) || (len (strip raw_text) <? min_text_length cfg)%Z
  then []
  else if hits_excluded (excluded_patterns cfg) raw_text
  then []
  else
    let raw := strip raw_text in
    let user := first_three_words raw (strip_ellipsis (reply_user raw)) in
    match user with
    | Some u => if truthy u then u else txt "NO USER"
    | None => txt "NO USER"
    end.

(** [OCRProcessor.validate_text_quality] *)
Definition validate_text_quality (cfg : OCRConfig) (text : str) : bool * str :=
  if negb (truthy text)
  then (false, txt "No text detected in the selected region.")
  else if (len text <? min_text_length cfg)%Z
  then (false, txt "Text too short (minimum " ++ str_of_int (min_text_length cfg)
                ++ txt " characters).")
  else
    match find (fun p => contains_points (upper p) (upper text))
               (excluded_patterns cfg) with
    | Some p => (false, txt "Excluded pattern detected: " ++ p)
    | None => (true, txt "Text quality is acceptable.")
    end.

End Normalizer.

(* ================================================================== *)
(** ** Collaborators: Pillow, pytesseract, Qt *)
(* ================================================================== *)

Module Py.
Import PyStr.

(** Outcome of a call that may raise; [msg] is [str(e)]. *)
Inductive result (A : Type) : Type :=
| Returned (a : A)
| Raised (msg : str).
Arguments Returned {A} a.
Arguments Raised {A} msg.

Definition bind {A B : Type} (r : result A) (k : A -> result B) : result B :=
  match r with
  | Returned a => k a
  | Raised msg => Raised msg
  end.

(** [try: body  except Exception as e: handler(str(e))] *)
Definition try_except {A : Type} (body : result A) (handler : str -> result A)
  : result A :=
  match body with
  | Returned a => Returned a
  | Raised msg => handler msg
  end.

End Py.

Module Qt.
Import Py PyStr.

(** Qt keeps coordinates in C [int]s. *)
Definition int_min : Z := - 2 ^ 31.
Definition int_max : Z := 2 ^ 31 - 1.

Definition fits_int (z : Z) : bool := ((int_min <=? z) && (z <=? int_max))%Z.

Definition wrap (z : Z) : Z := ((z + 2 ^ 31) mod 2 ^ 32 - 2 ^ 31)%Z.

(** [QRect]: the corners, as Qt stores them. *)
Record QRect := {
  x1 : Z;
  y1 : Z;
  x2 : Z;
  y2 : Z
}.

(** The C++ constructor [QRect(left, top, width, height)]. *)
Definition make_rect (left top width height : Z) : QRect := {|
  x1 := left;
  y1 := top;
  x2 := wrap (left + width - 1);
  y2 := wrap (top + height - 1)
|}.

Definition x (r : QRect) : Z := x1 r.
Definition y (r : QRect) : Z := y1 r.
Definition width (r : QRect) : Z := wrap (x2 r - x1 r + 1).
Definition height (r : QRect) : Z := wrap (y2 r - y1 r + 1).

Definition isNull (r : QRect) : bool :=
  ((x2 r =? wrap (x1 r - 1)) && (y2 r =? wrap (y1 r - 1)))%Z.

Definition isValid (r : QRect) : bool :=
  ((x1 r <=? x2 r) && (y1 r <=? y2 r))%Z.

(** [QRect(a, b, c, d)] called from Python: every argument is converted to a
    C [int]; one that does not fit raises [OverflowError]. *)
Definition new_QRect (left top width height : Z) : result QRect :=
  if fits_int left && fits_int top && fits_int width && fits_int height
  then Returned (make_rect left top width height)
  else Raised (txt "argument overflowed").

(** Truth value of an [Optional[QRect]] ([QRect.__bool__] is [isValid]). *)
Definition rect_truthy (r : option QRect) : bool :=
  match r with
  | Some q => isValid q
  | None => false
  end.

End Qt.

Module Pillow.

(** Decimal literals of the source. *)
Definition pyfloat := Q.

Inductive image_filter :=
| GaussianBlur (radius : pyfloat)
| UnsharpMask (radius : pyfloat) (percent threshold : Z).

End Pillow.

(** What the program calls and does not define. *)
Class Collaborators := {
  image : Type;
  pixmap : Type;
  (* Pillow *)
  size : image -> Z * Z;                               (* [img.size] *)
  convert : image -> PyStr.str -> image;               (* [img.convert(mode)] *)
  filter : image -> Pillow.image_filter -> image;      (* [img.filter(f)] *)
  enhance_contrast : image -> Pillow.pyfloat -> image; (* [ImageEnhance.Contrast(img).enhance(k)] *)
  (* pytesseract *)
  image_to_string : image -> PyStr.str -> Py.result PyStr.str;
  (* module-level helper built on QBuffer and [Image.open] *)
  qpixmap_to_pil : pixmap -> Py.result image;
  (* [pixmap.copy(rect)] with the crop scaled by the device pixel ratio *)
  copy_crop : pixmap -> Qt.QRect -> pixmap
}.

(* ================================================================== *)
(** ** ocr_processor.py: [OCRProcessor] *)
(* ================================================================== *)

Module Processor.
Import PyStr Py Config Normalizer Pillow.

Section WithCollaborators.
Context {E : Collaborators}.

(** [OCRProcessor.preprocess_image] *)
Definition preprocess_image (pil_img : image) : image :=
  let gray_img := convert pil_img (txt "L") in
  let denoised := filter gray_img (GaussianBlur (3 # 10)%Q) in
  let contrast_img := enhance_contrast denoised (12 # 10)%Q in
  let final_img := filter contrast_img (UnsharpMask (5 # 10)%Q 100 2) in
  final_img.

(** The [config=] argument of the one [image_to_string] call. *)
Definition engine_config (cfg : OCRConfig) : str := tesseract_config cfg.

(** The [except Exception as e] branch of [extract_text]. *)
Definition extract_text_handler (error_msg : str) : result str :=
  if contains (txt "tesseract is not installed") error_msg
     || contains (txt "tesseract: command not found") error_msg
  then Returned (txt "Tesseract OCR not installed")
  else Returned (txt "OCR Error: " ++ error_msg).

(** [OCRProcessor.extract_text] *)
Definition extract_text (cfg : OCRConfig) (pil_img : image) : result str :=
  try_except
    (let processed_img := preprocess_image pil_img in
     bind (image_to_string processed_img (engine_config cfg)) (fun out =>
     let raw_text := strip out in
     Returned (_filter_text_with_reply_pattern cfg raw_text)))
    extract_text_handler.

End WithCollaborators.
End Processor.

(* ================================================================== *)
(** ** web_engine.py: [AutomationWebView] *)
(* ================================================================== *)

Module WebEngine.
Import PyStr Py Config Qt.

Record AutomationWebView := {
  crop_rect : option QRect
}.

(** State of a view before [__init__] restores the crop. *)
Definition fresh_view : AutomationWebView := {| crop_rect := None |}.

(** [AutomationWebView._restore_last_crop_location]; an exception of the
    body is caught and leaves the view as it was. *)
Definition _restore_last_crop_location (loc : OCRLocationConfig)
    (v : AutomationWebView) : AutomationWebView :=
  if has_saved_location loc
  then match new_QRect (last_crop_x loc) (last_crop_y loc)
                       (last_crop_width loc) (last_crop_height loc) with
       | Returned r => {| crop_rect := Some r |}
       | Raised _ => v
       end
  else v.

(** [AutomationWebView._save_crop_location] *)
Definition _save_crop_location (loc : OCRLocationConfig) (rect : QRect)
  : OCRLocationConfig :=
  save_location loc (x rect) (y rect) (width rect) (height rect).

(** [AutomationWebView._on_crop_selected] *)
Definition _on_crop_selected (loc : OCRLocationConfig) (rect : QRect)
  : AutomationWebView * OCRLocationConfig :=
  ({| crop_rect := Some rect |}, _save_crop_location loc rect).

(** [AutomationWebView.clear_crop] *)
Definition clear_crop (v : AutomationWebView) : AutomationWebView :=
  {| crop_rect := None |}.

(** [AutomationWebView.capture_crop_area], [screen] being [self.grab()]. *)
Definition capture_crop_area {E : Collaborators} (v : AutomationWebView)
    (screen : pixmap) : option pixmap :=
  match crop_rect v with
  | Some r => if negb (isValid r) || isNull r then None else Some (copy_crop screen r)
  | None => None
  end.

(** *** The page script of [inject_text_with_automation] *)

Inductive dom_call :=
| call_focus
| call_blur
| dispatch_event (name : str).

(** The description field: its value and the calls it received, oldest
    first. *)
Record textarea := {
  value : str;
  calls : list dom_call
}.

(** The page as the script sees it:
    [document.querySelector('textarea[data-testid="autogrow-textarea"]')]. *)
Record page := {
  autogrow_textarea : option textarea
}.

Inductive js_value :=
| js_bool (b : bool)
| js_null.

(** The token is spliced between backquotes ([`{text}`]); the script below
    is the text that reaches the page when the token leaves that template
    literal intact: no backquote, no backslash, no [${]. *)
Definition template_safe (text : str) : bool :=
  negb (existsb (fun c => Ascii.eqb c "`"%char || Ascii.eqb c "\"%char) text)
  && negb (contains (txt "${") text).

(** [simple_script]: the new page and the value the script evaluates to. *)
Definition simple_script (text : str) (p : page) : page * js_value :=
  match autogrow_textarea p with
  | None => (p, js_bool false)
  | Some ta =>
      let ta1 := {| value := []; calls := calls ta |} in
      let ta2 := {| value := value ta1; calls := calls ta1 ++ [call_focus] |} in
      let ta3 := {| value := text; calls := calls ta2 |} in
      let ta4 := {| value := value ta3;
                    calls := calls ta3 ++ [dispatch_event (txt "input")] |} in
      let ta5 := {| value := value ta4; calls := calls ta4 ++ [call_blur] |} in
      let ta6 := {| value := value ta5;
                    calls := calls ta5 ++ [dispatch_event (txt "focusout")] |} in
      ({| autogrow_textarea := Some ta6 |}, js_bool true)
  end.

(** *** The script text around the token *)

(** How JavaScript reads a template literal, from the character after the
    opening backquote: the string it denotes and the source left after the
    closing backquote.  A CR, alone or before LF, denotes LF.  [None]: a
    substitution [${] opens, the literal is not closed within [s], or an
    escape other than the few read here stands in it. *)
Fixpoint js_template_literal (s : str) : option (str * str) :=
  let more (x : ascii) (r : option (str * str)) :=
    match r with
    | Some (v, rest) => Some (x :: v, rest)
    | None => None
    end in
  match s with
  | [] => None
  | c :: s' =>
      if Ascii.eqb c "`"%char then Some ([], s')
      else if Ascii.eqb c "\"%char then
        match s' with
        | [] => None
        | d :: s'' =>
            if Ascii.eqb d "`"%char || Ascii.eqb d "\"%char || Ascii.eqb d "$"%char
            then more d (js_template_literal s'')
            else if Ascii.eqb d "n"%char then more LF (js_template_literal s'')
            else if Ascii.eqb d "r"%char then more CR (js_template_literal s'')
            else None
        end
      else if Ascii.eqb c "$"%char then
        match s' with
        | [] => None
        | d :: _ => if Ascii.eqb d "{"%char then None
                    else more c (js_template_literal s')
        end
      else if Ascii.eqb c CR then
        match s' with
        | [] => None
        | d :: s'' => if Ascii.eqb d LF then more LF (js_template_literal s'')
                      else more LF (js_template_literal s')
        end
      else more c (js_template_literal s')
  end.

Definition ident_start (c : ascii) : bool :=
  let n := code c in
  (((65 <=? n) && (n <=? 90)) || ((97 <=? n) && (n <=? 122))
   || (n =? 95) || (n =? 36))%N.

Definition ident_part (c : ascii) : bool :=
  let n := code c in
  ident_start c || ((48 <=? n) && (n <=? 57))%N.

(** The identifier at the head of [s]. *)
Fixpoint ident_of (s : str) : str :=
  match s with
  | [] => []
  | c :: s' => if ident_part c then c :: ident_of s' else []
  end.

(** An identifier other than the operators [in] and [instanceof] follows:
    after a complete expression on the same line JavaScript has no reading
    for it. *)
Definition word_follows (rest : str) : bool :=
  match rest with
  | [] => false
  | c :: _ =>
      ident_start c
      && negb (str_eqb (ident_of rest) (txt "in"))
      && negb (str_eqb (ident_of rest) (txt "instanceof"))
  end.

(** What the page makes of the script built for a token. *)
Inductive script_outcome :=
| runs (script : page -> page * js_value)  (* the script as written *)
| syntax_error                             (* rejected whole, nothing runs *)
| other_script.                            (* another text, not read here *)

(** [simple_script] as the page receives it.  The f-string puts the token
    after the backquote of [textarea.value = `{text}`;]: where the literal
    read from there closes at the written backquote, the script is the one
    written, assigning the string the literal denotes; where it closes
    earlier and an identifier follows, the script is rejected. *)
Definition page_script (text : str) : script_outcome :=
  match js_template_literal (text ++ txt "`;") with
  | Some (v, rest) =>
      if str_eqb rest (txt ";") then runs (simple_script v)
      else if word_follows rest then syntax_error
      else other_script
  | None => other_script
  end.

(** What the callback given to [runJavaScript] is handed; a script that
    fails hands it no value. *)
Definition delivered (o : script_outcome) (p : page) : option (page * js_value) :=
  match o with
  | runs script => Some (script p)
  | syntax_error => Some (p, js_null)
  | other_script => None
  end.

End WebEngine.

(* ================================================================== *)
(** ** main_app.py: [OCRWorkerThread] and the loop of [MainWindow] *)
(* ================================================================== *)

Module App.
Import PyStr Py Config Normalizer Qt WebEngine Processor.

Definition USERNAME_OCR_FAIL : str := txt "USERNAME_OCR_FAIL".

Section WithCollaborators.
Context {E : Collaborators}.

(** *** The worker thread *)

Inductive signal :=
| ocr_completed (text : str) (pm : pixmap)
| ocr_failed (error_message : str).

(** [OCRWorkerThread.__init__]: [OCRProcessor()] holds the global
    [config.ocr] object, so the assignment changes the global config. *)
Definition worker_init (cfg : OCRConfig) (full_page : bool) : OCRConfig :=
  if full_page
  then set_min_text_length cfg (Z.max 1 (min_text_length cfg / 2))
  else cfg.

(** [OCRWorkerThread.run]; [loop_active] is [self.parent().loop_active] as
    the worker reads it.  The result is the signal emitted. *)
Definition run (cfg : OCRConfig) (loop_active : bool) (pm : pixmap)
  : result signal :=
  try_except
    (bind (qpixmap_to_pil pm) (fun pil_img =>
     bind (extract_text cfg pil_img) (fun text =>
     let '(is_valid, reason) := validate_text_quality cfg text in
     if loop_active then
       if truthy (strip text)
       then Returned (ocr_completed text pm)
       else Returned (ocr_completed USERNAME_OCR_FAIL pm)
     else if is_valid then Returned (ocr_completed text pm)
     else Returned (ocr_failed reason))))
    (fun e =>
       if loop_active
       then Returned (ocr_completed USERNAME_OCR_FAIL pm)
       else Returned (ocr_failed (txt "OCR processing failed: " ++ e))).

(** *** The main window *)

(** Status-bar texts, label texts and the enabling of buttons are display
    only and left out. *)
Record MainWindow := {
  ocr : OCRConfig;                    (* the global [config.ocr] *)
  ocr_location : OCRLocationConfig;   (* the global [config.ocr_location] *)
  web_view : AutomationWebView;
  loop_active : bool;
  loop_state : str;
  current_ocr_text : str;
  full_page : bool;                   (* [full_page_checkbox.isChecked()] *)
  description_save_delay : Z;         (* spin box values, ms *)
  image_load_delay : Z
}.

Definition set_ocr (w : MainWindow) (c : OCRConfig) : MainWindow :=
  {| ocr := c; ocr_location := ocr_location w; web_view := web_view w;
     loop_active := loop_active w; loop_state := loop_state w;
     current_ocr_text := current_ocr_text w; full_page := full_page w;
     description_save_delay := description_save_delay w;
     image_load_delay := image_load_delay w |}.

Definition set_loop_active (w : MainWindow) (b : bool) : MainWindow :=
  {| ocr := ocr w; ocr_location := ocr_location w; web_view := web_view w;
     loop_active := b; loop_state := loop_state w;
     current_ocr_text := current_ocr_text w; full_page := full_page w;
     description_save_delay := description_save_delay w;
     image_load_delay := image_load_delay w |}.

Definition set_loop_state (w : MainWindow) (s : str) : MainWindow :=
  {| ocr := ocr w; ocr_location := ocr_location w; web_view := web_view w;
     loop_active := loop_active w; loop_state := s;
     current_ocr_text := current_ocr_text w; full_page := full_page w;
     description_save_delay := description_save_delay w;
     image_load_delay := image_load_delay w |}.

Definition set_current_ocr_text (w : MainWindow) (t : str) : MainWindow :=
  {| ocr := ocr w; ocr_location := ocr_location w; web_view := web_view w;
     loop_active := loop_active w; loop_state := loop_state w;
     current_ocr_text := t; full_page := full_page w;
     description_save_delay := description_save_delay w;
     image_load_delay := image_load_delay w |}.

(** Methods a [QTimer.singleShot] is aimed at. *)
Inductive slot :=
| slot_loop_write_text
| slot_loop_proceed_to_next
| slot_automation_step.

(** Callbacks handed to [runJavaScript] with the injection script. *)
Inductive js_callback :=
| cb_after_write_injection   (* closure of [_loop_write_text] *)
| cb_after_injection.        (* closure of [_do_write] *)

(** What a method asks of Qt, in program order. *)
Inductive effect :=
| singleShot (ms : Z) (target : slot)
| runJavaScript_inject (text : str) (finished_cb : option js_callback)
| runJavaScript_navigate
| worker_start (pm : pixmap) (full_page : bool)
| show_warning (title : str)
| show_error (title : str).

Definition method := (MainWindow * list effect)%type.

(** [AutomationWebView.inject_text_with_automation]: dispatches
    [simple_script] and returns [True]. *)
Definition inject_text_with_automation (text : str)
    (finished_cb : option js_callback) : list effect * bool :=
  ([runJavaScript_inject text finished_cb], true).

(** [MainWindow._navigate_next] *)
Definition _navigate_next (w : MainWindow) : method :=
  (w, [runJavaScript_navigate]).

(** [MainWindow._run_ocr], [screen] being what [web_view.grab()] returns. *)
Definition _run_ocr (screen : pixmap) (w : MainWindow) : method :=
  if negb (full_page w) && negb (rect_truthy (crop_rect (web_view w)))
  then (w, [show_warning (txt "No Crop Area")])
  else
    let crop_pixmap :=
      if full_page w then Some screen
      else capture_crop_area (web_view w) screen in
    match crop_pixmap with
    | None => (w, [show_error (txt "Capture Failed")])
    | Some pm =>
        (set_ocr w (worker_init (ocr w) (full_page w)),
         [worker_start pm (full_page w)])
    end.

(** [MainWindow._automation_step] *)
Definition _automation_step (screen : pixmap) (w : MainWindow) : method :=
  if negb (loop_active w) then (w, [])
  else _run_ocr screen w.

(** [MainWindow._loop_proceed_to_next] *)
Definition _loop_proceed_to_next (w : MainWindow) : method :=
  if negb (loop_active w) then (w, [])
  else
    let w1 := set_current_ocr_text w [] in
    let '(w2, nav) := _navigate_next w1 in
    if loop_active w2
    then (w2, nav ++ [singleShot (image_load_delay w2) slot_automation_step])
    else (w2, nav).

(** The closure [_after_write_injection] of [_loop_write_text]. *)
Definition _after_write_injection (w : MainWindow) (result : js_value) : method :=
  if loop_active w then _loop_proceed_to_next w else (w, []).

(** [MainWindow._loop_write_text] *)
Definition _loop_write_text (w : MainWindow) : method :=
  if negb (loop_active w) then (w, [])
  else if truthy (current_ocr_text w)
  then (w, fst (inject_text_with_automation (current_ocr_text w)
                  (Some cb_after_write_injection)))
  else _after_write_injection w (js_bool true).

(** [MainWindow._on_ocr_completed] *)
Definition _on_ocr_completed (w : MainWindow) (text : str) : method :=
  let w1 := set_current_ocr_text w text in
  if loop_active w1 && truthy text
  then (w1, [singleShot (description_save_delay w1) slot_loop_write_text])
  else if loop_active w1 && negb (truthy text)
  then (w1, [singleShot 500 slot_loop_proceed_to_next])
  else (w1, []).

(** [MainWindow._on_ocr_failed] *)
Definition _on_ocr_failed (w : MainWindow) (error_message : str) : method :=
  let w1 := set_current_ocr_text w USERNAME_OCR_FAIL in
  if loop_active w1
  then (w1, [singleShot (description_save_delay w1) slot_loop_write_text])
  else (w1, []).

(** [MainWindow._start_loop] *)
Definition _start_loop (screen : pixmap) (w : MainWindow) : method :=
  if loop_active w then (w, [])
  else if negb (full_page w) && negb (rect_truthy (crop_rect (web_view w)))
  then (w, [show_warning (txt "No Crop Area")])
  else _automation_step screen (set_loop_state (set_loop_active w true) (txt "OCR")).

(** [MainWindow._stop_loop] *)
Definition _stop_loop (w : MainWindow) : method :=
  (set_loop_active w false, []).

(** [MainWindow._proceed_to_next], the manual button. *)
Definition _proceed_to_next (w : MainWindow) : method :=
  let w1 := set_current_ocr_text w [] in
  let '(w2, nav) := _navigate_next w1 in
  if loop_active w2
  then (w2, nav ++ [singleShot (image_load_delay w2 + 1000) slot_automation_step])
  else (w2, nav).

(** [MainWindow._do_write], the manual button. *)
Definition _do_write (w : MainWindow) : method :=
  if negb (truthy (current_ocr_text w)) then (w, [])
  else (w, fst (inject_text_with_automation (current_ocr_text w)
                  (Some cb_after_injection))).

(** *** The event loop *)

(** What Qt delivers to the window. *)
Inductive event :=
| start_clicked
| stop_clicked
| ocr_clicked
| write_clicked
| next_clicked
| worker_signal (s : signal)                     (* OCR completion *)
| timer_fired (target : slot)                    (* a [singleShot] expires *)
| js_finished (cb : js_callback) (r : js_value). (* a script's result arrives *)

(** The events of the loop's own making: completions, timers, script
    results. *)
Definition is_callback (ev : event) : bool :=
  match ev with
  | worker_signal _ | timer_fired _ | js_finished _ _ => true
  | _ => false
  end.

Definition handle (screen : pixmap) (w : MainWindow) (ev : event) : method :=
  match ev with
  | start_clicked => _start_loop screen w
  | stop_clicked => _stop_loop w
  | ocr_clicked => _run_ocr screen w
  | write_clicked => _do_write w
  | next_clicked => _proceed_to_next w
  | worker_signal (ocr_completed text _) => _on_ocr_completed w text
  | worker_signal (ocr_failed msg) => _on_ocr_failed w msg
  | timer_fired slot_loop_write_text => _loop_write_text w
  | timer_fired slot_loop_proceed_to_next => _loop_proceed_to_next w
  | timer_fired slot_automation_step => _automation_step screen w
  | js_finished cb_after_write_injection r => _after_write_injection w r
  | js_finished cb_after_injection _ => (w, [])
  end.

(** Handle the events in order, each with the screen of its moment; the
    effects of all of them, in order. *)
Fixpoint handle_all (w : MainWindow) (evs : list (pixmap * event)) : method :=
  match evs with
  | [] => (w, [])
  | (screen, ev) :: evs' =>
      let '(w1, e1) := handle screen w ev in
      let '(w2, e2) := handle_all w1 evs' in
      (w2, e1 ++ e2)
  end.

End WithCollaborators.
End App.

(* ================================================================== *)
(** ** Vocabulary of the statements *)
(* ================================================================== *)

Module Vocabulary.
Import PyStr Py Re Config Normalizer Qt WebEngine Processor App.

(** What it is for a pattern to match at the head of a text, whatever the
    order in which the matcher tries: every item takes a number of characters
    of its class within its bounds; the third argument is the text of
    group 1. *)
Inductive matches : pattern -> str -> str -> Prop :=
| matches_nil (s : str) : matches [] s []
| matches_cons (it : item) (p : pattern) (s g : str) (n : nat) :
    lo it <= n ->
    (forall h, hi it = Some h -> n <= h) ->
    n <= List.length s ->
    forallb (cls it) (firstn n s) = true ->
    matches p (skipn n s) g ->
    matches (it :: p) s ((if grp it then firstn n s else []) ++ g).

(** [p] occurs in [raw] up to the case of letters. *)
Definition occurs_ignoring_case (p raw : str) : Prop :=
  exists pre mid post, raw = pre ++ mid ++ post /\ upper mid = upper p.

(** The text gets past the length check and the excluded patterns. *)
Definition passes_checks (cfg : OCRConfig) (raw_text : str) : bool :=
  truthy raw_text
  && negb (len (strip raw_text) <? min_text_length cfg)%Z
  && negb (hits_excluded (excluded_patterns cfg) raw_text).

(** [m] is the marker phrase in some casing. *)
Definition is_marker (m : str) : Prop :=
  map lower_char m = txt "reply to".

(** [s] holds the marker, then white space, then the run [g] of [lo] to
    [hi] characters other than LF and CR. *)
Definition marker_then_run (lo hi : nat) (s g : str) : Prop :=
  exists pre m ws post,
    s = pre ++ m ++ ws ++ g ++ post /\
    is_marker m /\
    ws <> [] /\ forallb isspace ws = true /\
    lo <= List.length g <= hi /\ forallb not_newline g = true.

(** The same, with the run followed by an ellipsis. *)
Definition marker_then_run_dots (lo hi : nat) (s g : str) : Prop :=
  exists pre m ws post,
    s = pre ++ m ++ ws ++ g ++ txt "..." ++ post /\
    is_marker m /\
    ws <> [] /\ forallb isspace ws = true /\
    lo <= List.length g <= hi /\ forallb not_newline g = true.

(** A captured run with the white space around it trimmed, a terminating
    ellipsis stripped and the white space before it trimmed. *)
Definition clean_run (g : str) : str :=
  let u := strip g in
  if endswith u (txt "...") then rstrip (drop_last 3 u) else u.

(** The first three white-space separated words of a text. *)
Definition three_words (raw : str) : str :=
  join (txt " ") (firstn 3 (split (replace_char LF SP raw))).

(** The marker rules as the specification words them, with a run of 1 to
    60 characters. *)
Definition stated_reply_ellipsis : pattern :=
  literal_ci "Reply to" ++ [spaces1; run_lazy 1 60] ++ literal_ci "...".

Definition stated_reply_plain : pattern :=
  literal_ci "Reply to" ++ [spaces1; run_greedy 1 60].

Definition stated_marker_token (raw : str) : option str :=
  match search stated_reply_ellipsis raw with
  | Some g => Some (clean_run g)
  | None =>
      match search stated_reply_plain raw with
      | Some g => Some (clean_run g)
      | None => None
      end
  end.

(** The engine mode as the specification words it: sparse text for a crop,
    block text for a full page. *)
Definition stated_engine_config (cfg : OCRConfig) (full_page : bool) : str :=
  txt "--psm " ++ str_of_int (if full_page then psm_filled cfg else psm_sparse cfg).

Definition set_psm (c : OCRConfig) (sparse filled : Z) : OCRConfig := {|
  tesseract_config := tesseract_config c;
  min_text_length := min_text_length c;
  excluded_patterns := excluded_patterns c;
  psm_sparse := sparse;
  psm_filled := filled
|}.

(** The collaborators [E] with another OCR engine. *)
Definition with_engine (E : Collaborators)
    (engine : @image E -> str -> result str) : Collaborators := {|
  image := @image E;
  pixmap := @pixmap E;
  size := @size E;
  convert := @convert E;
  filter := @filter E;
  enhance_contrast := @enhance_contrast E;
  image_to_string := engine;
  qpixmap_to_pil := @qpixmap_to_pil E;
  copy_crop := @copy_crop E
|}.

(** Collaborators for closed examples: an image is its size, Pillow leaves
    it alone, the pixmap converts, the engine answers [engine cfg]. *)
Definition scripted (engine : str -> result str) : Collaborators := {|
  image := (Z * Z)%type;
  pixmap := unit;
  size := fun img => img;
  convert := fun img _ => img;
  filter := fun img _ => img;
  enhance_contrast := fun img _ => img;
  image_to_string := fun _ cfg => engine cfg;
  qpixmap_to_pil := fun _ => Returned (640, 480)%Z;
  copy_crop := fun pm _ => pm
|}.

(** What pytesseract raises when the [tesseract] binary is missing. *)
Definition tesseract_not_found : str :=
  txt "tesseract is not installed or it's not in your PATH. See README file for more information.".

(** A window in the middle of a loop, and the same window stopped. *)
Definition looping_window : MainWindow := {|
  ocr := default_ocr;
  ocr_location := default_location;
  web_view := {| crop_rect := Some (make_rect 10 20 300 40) |};
  loop_active := true;
  loop_state := txt "OCR";
  current_ocr_text := [];
  full_page := false;
  description_save_delay := 1000;
  image_load_delay := 2000
|}.

(** Collaborators of the closed examples below. *)
Definition reads_zoe : Collaborators :=
  scripted (fun _ => Returned (txt "Reply to zoe99...")).

Definition engine_missing : Collaborators :=
  scripted (fun _ => Raised tesseract_not_found).

Definition late_callbacks : list (@pixmap reads_zoe * @event reads_zoe) :=
  [(tt, worker_signal (@ocr_completed reads_zoe (txt "zoe99") tt));
   (tt, timer_fired slot_loop_write_text);
   (tt, js_finished cb_after_write_injection (js_bool true));
   (tt, timer_fired slot_automation_step)].

End Vocabulary.

(* ================================================================== *)
(** ** More of the program: URL bar, status line, settings, script text *)
(* ================================================================== *)

Module PyStrMore.
Import PyStr.

(** [s.replace(a, new)] for a one-character [a] *)
Definition replace_with (a : ascii) (new : str) (s : str) : str :=
  flat_map (fun c => if Ascii.eqb c a then new else [c]) s.


Definition BACKSLASH : ascii := ascii_of_N 92.
Definition QUOTE : ascii := ascii_of_N 39.
Definition DQUOTE : ascii := ascii_of_N 34.

End PyStrMore.

Module Ui.
Import PyStr PyStrMore Config.

(** [StatusWidget.update_url]: the text given to the URL label. *)
Definition update_url (url : str) : str :=
  if (50 <? len url)%Z then firstn 47 url ++ txt "..." else url.



(** [config.py]: [AutomationConfig] *)
Record AutomationConfig := {
  stealth_mode : bool;
  multi_save_attempts : bool;
  focus_override : bool;
  save_timeout_ms : Z;
  refocus_interval_ms : Z
}.

Definition default_automation : AutomationConfig := {|
  stealth_mode := true;
  multi_save_attempts := true;
  focus_override := true;
  save_timeout_ms := 2000;
  refocus_interval_ms := 50
|}.

(** [QSpinBox.setValue] under [setRange(lo, hi)]: Qt brings the value into
    the range. *)
Definition spin_setValue (lo hi v : Z) : Z := Z.max lo (Z.min hi v).

(** The widgets of [SettingsDialog]; the spin box has [setRange(1, 100)]. *)
Record SettingsDialog := {
  tesseract_config_edit : str;
  min_text_length_spin : Z;
  stealth_mode_check : bool;
  focus_override_check : bool;
  multi_save_check : bool
}.

(** [SettingsDialog._load_current_settings] *)
Definition _load_current_settings (ocr : OCRConfig) (automation : AutomationConfig)
  : SettingsDialog := {|
  tesseract_config_edit := tesseract_config ocr;
  min_text_length_spin := spin_setValue 1 100 (min_text_length ocr);
  stealth_mode_check := stealth_mode automation;
  focus_override_check := focus_override automation;
  multi_save_check := multi_save_attempts automation
|}.

(** [SettingsDialog._restore_defaults] *)
Definition _restore_defaults (d : SettingsDialog) : SettingsDialog := {|
  tesseract_config_edit := tesseract_config default_ocr;
  min_text_length_spin := spin_setValue 1 100 (min_text_length default_ocr);
  stealth_mode_check := stealth_mode default_automation;
  focus_override_check := focus_override default_automation;
  multi_save_check := multi_save_attempts default_automation
|}.

(** What the user does to the dialog between its creation and OK. *)
Inductive edit :=
| type_config (text : str)
| set_spin (v : Z)
| toggle_stealth (b : bool)
| toggle_focus (b : bool)
| toggle_multi (b : bool)
| restore_defaults.

Definition apply_edit (d : SettingsDialog) (e : edit) : SettingsDialog :=
  match e with
  | type_config text =>
      {| tesseract_config_edit := text;
         min_text_length_spin := min_text_length_spin d;
         stealth_mode_check := stealth_mode_check d;
         focus_override_check := focus_override_check d;
         multi_save_check := multi_save_check d |}
  | set_spin v =>
      {| tesseract_config_edit := tesseract_config_edit d;
         min_text_length_spin := spin_setValue 1 100 v;
         stealth_mode_check := stealth_mode_check d;
         focus_override_check := focus_override_check d;
         multi_save_check := multi_save_check d |}
  | toggle_stealth b =>
      {| tesseract_config_edit := tesseract_config_edit d;
         min_text_length_spin := min_text_length_spin d;
         stealth_mode_check := b;
         focus_override_check := focus_override_check d;
         multi_save_check := multi_save_check d |}
  | toggle_focus b =>
      {| tesseract_config_edit := tesseract_config_edit d;
         min_text_length_spin := min_text_length_spin d;
         stealth_mode_check := stealth_mode_check d;
         focus_override_check := b;
         multi_save_check := multi_save_check d |}
  | toggle_multi b =>
      {| tesseract_config_edit := tesseract_config_edit d;
         min_text_length_spin := min_text_length_spin d;
         stealth_mode_check := stealth_mode_check d;
         focus_override_check := focus_override_check d;
         multi_save_check := b |}
  | restore_defaults => _restore_defaults d
  end.

(** [SettingsDialog._save_settings]: the two global configs after OK. *)
Definition _save_settings (d : SettingsDialog) (ocr : OCRConfig)
    (automation : AutomationConfig) : OCRConfig * AutomationConfig :=
  ({| tesseract_config := tesseract_config_edit d;
      min_text_length := min_text_length_spin d;
      excluded_patterns := excluded_patterns ocr;
      psm_sparse := psm_sparse ocr;
      psm_filled := psm_filled ocr |},
   {| stealth_mode := stealth_mode_check d;
      multi_save_attempts := multi_save_check d;
      focus_override := focus_override_check d;
      save_timeout_ms := save_timeout_ms automation;
      refocus_interval_ms := refocus_interval_ms automation |}).

End Ui.

Module Scripts.
Import PyStr PyStrMore.

(** [focus_solutions.py], [get_input_injection_script], line 194: the text
    as it is put between single quotes in the script. *)
Definition text_js (text : str) : str :=
  replace_with LF (txt " ")
    (replace_with QUOTE [BACKSLASH; QUOTE]
       (replace_with BACKSLASH [BACKSLASH; BACKSLASH] text)).

(** [debug_injection_method.py], [_inject_text_and_save], line 12. *)
Definition text_escaped (text : str) : str :=
  replace_with CR [BACKSLASH; "r"%char]
    (replace_with LF [BACKSLASH; "n"%char]
       (replace_with DQUOTE [BACKSLASH; DQUOTE]
          (replace_with QUOTE [BACKSLASH; QUOTE]
             (replace_with BACKSLASH [BACKSLASH; BACKSLASH] text)))).

End Scripts.

Module MoreVocabulary.
Import PyStr PyStrMore Py Re Config Normalizer Qt WebEngine Processor App Ui Scripts.

(** The text has a character that is not white space. *)
Definition has_word (s : str) : bool :=
  existsb (fun c => negb (isspace c)) s.

(** The text has no line break. *)
Definition single_line (s : str) : bool := forallb not_newline s.

(** How JavaScript reads the body of a single-quoted string literal, for the
    escapes the two scripts produce: [None] where the literal ends early (a
    bare quote), breaks (a bare line terminator), or holds an escape the
    scripts do not produce. *)
Fixpoint js_single_quoted (s : str) : option str :=
  match s with
  | [] => Some []
  | c :: s' =>
      if Ascii.eqb c BACKSLASH then
        match s' with
        | [] => None
        | d :: s'' =>
            let decoded :=
              if Ascii.eqb d BACKSLASH then Some d
              else if Ascii.eqb d QUOTE then Some d
              else if Ascii.eqb d DQUOTE then Some d
              else if Ascii.eqb d "n"%char then Some LF
              else if Ascii.eqb d "r"%char then Some CR
              else None in
            match decoded, js_single_quoted s'' with
            | Some x, Some rest => Some (x :: rest)
            | _, _ => None
            end
        end
      else if Ascii.eqb c QUOTE || Ascii.eqb c LF || Ascii.eqb c CR
      then None
      else match js_single_quoted s' with
           | Some rest => Some (c :: rest)
           | None => None
           end
  end.

(** The configurations the running program can hold: the defaults, changed
    by the creation of workers and by OK in the settings dialog. *)
Inductive dialog_reachable : SettingsDialog -> Prop :=
| dialog_created (ocr : OCRConfig) (a : AutomationConfig) :
    dialog_reachable (_load_current_settings ocr a)
| dialog_edited (d : SettingsDialog) (e : edit) :
    dialog_reachable d -> dialog_reachable (apply_edit d e).

Inductive config_reachable : OCRConfig -> Prop :=
| config_initial : config_reachable default_ocr
| config_worker (c : OCRConfig) (full_page : bool) :
    config_reachable c -> config_reachable (worker_init c full_page)
| config_saved (c : OCRConfig) (a : AutomationConfig) (d : SettingsDialog) :
    config_reachable c -> dialog_reachable d ->
    config_reachable (fst (_save_settings d c a)).

(** All four corners of a rectangle are C [int]s. *)
Definition rect_fits (r : QRect) : bool :=
  fits_int (x1 r) && fits_int (y1 r) && fits_int (x2 r) && fits_int (y2 r).

(** A window that can capture: full-page mode, or a usable crop. *)
Definition can_capture (w : MainWindow) : bool :=
  full_page w ||
  match crop_rect (web_view w) with
  | Some r => isValid r && negb (isNull r)
  | None => false
  end.

(** The pixmap a capture gives. *)
Definition captured {E : Collaborators} (w : MainWindow) (screen : pixmap) : pixmap :=
  if full_page w then screen
  else match crop_rect (web_view w) with
       | Some r => copy_crop screen r
       | None => screen
       end.

(** The text does not begin with white space; it neither begins nor ends
    with white space. *)
Definition starts_clean (s : str) : bool :=
  match s with
  | [] => true
  | c :: _ => negb (isspace c)
  end.

Definition is_stripped (s : str) : bool := starts_clean s && starts_clean (rev s).

(** The text the window shows as last OCR result after the events [evs],
    from [t0]: that of the last worker signal, the marker for a failure. *)
Definition last_ocr_text {E : Collaborators} (evs : list (pixmap * event))
    (t0 : str) : str :=
  fold_left
    (fun t d =>
       match snd d with
       | worker_signal (ocr_completed text _) => text
       | worker_signal (ocr_failed _) => USERNAME_OCR_FAIL
       | _ => t
       end)
    evs t0.

(** [n] full-page workers created one after the other. *)
Definition full_page_workers (n : nat) (cfg : OCRConfig) : OCRConfig :=
  Nat.iter n (fun c => worker_init c true) cfg.

End MoreVocabulary.

(* ================================================================== *)
(** ** Facts about Python strings *)
(* ================================================================== *)

Module PyStrFacts.
Import PyStr.

Lemma startswith_app (p s : str) : startswith (p ++ s) p = true.
Proof.
  induction p as [|a p IH]; simpl.
  - reflexivity.
  - rewrite Ascii.eqb_refl. exact IH.
Qed.

Lemma startswith_split (s p : str) :
  startswith s p = true -> exists rest, s = p ++ rest.
Proof.
  revert s. induction p as [|a p IH]; intros s H.
  - exists s. reflexivity.
  - destruct s as [|b s]; simpl in H; [discriminate|].
    apply andb_true_iff in H. destruct H as [Hab Hs].
    apply Ascii.eqb_eq in Hab. subst b.
    destruct (IH _ Hs) as [rest ->]. exists rest. reflexivity.
Qed.

Lemma contains_unfold (needle hay : str) :
  contains needle hay =
  startswith hay needle ||
  match hay with [] => false | _ :: hay' => contains needle hay' end.
Proof. destruct hay; reflexivity. Qed.

Lemma contains_intro (needle pre post : str) :
  contains needle (pre ++ needle ++ post) = true.
Proof.
  induction pre as [|c pre IH]; simpl.
  - rewrite contains_unfold, startswith_app. reflexivity.
  - rewrite IH. apply orb_true_r.
Qed.

Lemma contains_elim (needle hay : str) :
  contains needle hay = true -> exists pre post, hay = pre ++ needle ++ post.
Proof.
  induction hay as [|c hay IH]; simpl; intros H.
  - rewrite orb_false_r in H. destruct (startswith_split _ _ H) as [rest Hr].
    exists [], rest. exact Hr.
  - apply orb_true_iff in H. destruct H as [H|H].
    + destruct (startswith_split _ _ H) as [rest Hr].
      exists [], rest. exact Hr.
    + destruct (IH H) as (pre & post & ->).
      exists (c :: pre), post. reflexivity.
Qed.

Lemma startswith_points_app (p s : list N) : startswith_points (p ++ s) p = true.
Proof.
  induction p as [|a p IH]; simpl.
  - reflexivity.
  - rewrite N.eqb_refl. exact IH.
Qed.

Lemma contains_points_unfold (needle hay : list N) :
  contains_points needle hay =
  startswith_points hay needle ||
  match hay with [] => false | _ :: hay' => contains_points needle hay' end.
Proof. destruct hay; reflexivity. Qed.

Lemma contains_points_intro (needle pre post : list N) :
  contains_points needle (pre ++ needle ++ post) = true.
Proof.
  induction pre as [|c pre IH]; simpl.
  - rewrite contains_points_unfold, startswith_points_app. reflexivity.
  - rewrite IH. apply orb_true_r.
Qed.

Lemma upper_app (a b : str) : upper (a ++ b) = upper a ++ upper b.
Proof. apply flat_map_app. Qed.

Lemma truthy_true (s : str) : s <> [] -> truthy s = true.
Proof. destruct s; [congruence | reflexivity]. Qed.

End PyStrFacts.

(* ================================================================== *)
(** ** The normaliser: empty input and excluded patterns *)
(* ================================================================== *)

Module NormalizerFacts.
Import PyStr PyStrFacts Config Normalizer Vocabulary.

Lemma hits_excluded_intro (pats : list str) (p raw : str) :
  In p pats -> occurs_ignoring_case p raw -> hits_excluded pats raw = true.
Proof.
  intros Hin (pre & mid & post & -> & Hup).
  apply existsb_exists. exists p. split; [exact Hin|].
  rewrite !upper_app, Hup. apply contains_points_intro.
Qed.

(** C2, as stated: on the empty string the normaliser does not answer
    ["NO USER"]; the guard of line 111 returns the empty token. *)
Lemma normalize_empty_not_no_user :
  _filter_text_with_reply_pattern default_ocr (txt "") = txt "" /\
  _filter_text_with_reply_pattern default_ocr (txt "") <> txt "NO USER".
Proof. split; [reflexivity | discriminate]. Qed.

(** C2, amended: applied to the empty string the normaliser returns the
    empty token, whatever the configuration; the test [not raw_text] comes
    before every other rule. *)
Theorem normalize_empty (cfg : OCRConfig) :
  _filter_text_with_reply_pattern cfg (txt "") = txt "".
Proof. reflexivity. Qed.

(** C6: a raw text in which a string of [excluded_patterns] occurs, up to
    the case of letters, is normalised to the empty token. *)
Theorem excluded_pattern_gives_empty (cfg : OCRConfig) (raw_text p : str) :
  In p (excluded_patterns cfg) ->
  occurs_ignoring_case p raw_text ->
  _filter_text_with_reply_pattern cfg raw_text = [].
Proof.
  intros Hin Hocc. unfold _filter_text_with_reply_pattern.
  destruct (negb (truthy raw_text) || (len (strip raw_text) <? min_text_length cfg)%Z).
  - reflexivity.
  - rewrite (hits_excluded_intro _ Hin Hocc). reflexivity.
Qed.

Lemma excluded_pattern_gives_empty_witness :
  _filter_text_with_reply_pattern default_ocr (txt "Reply to bob ... loading") = [].
Proof.
  apply (excluded_pattern_gives_empty default_ocr (p := txt "LOADING")).
  - simpl. right. right. left. reflexivity.
  - exists (txt "Reply to bob ... "), (txt "loading"), []. split; reflexivity.
Defined.

End NormalizerFacts.

(* ================================================================== *)
(** ** Preprocessing and extraction *)
(* ================================================================== *)

Module ProcessorFacts.
Import PyStr PyStrFacts Py Config Normalizer Pillow Processor App Vocabulary.

Section Preprocess.
Context {E : Collaborators}.

(** What Pillow documents of the three calls: each returns an image of the
    size of its input. *)
Hypothesis convert_size : forall img mode, size (convert img mode) = size img.
Hypothesis filter_size : forall img f, size (filter img f) = size img.
Hypothesis enhance_size : forall img k, size (enhance_contrast img k) = size img.

(** C5: the image [preprocess_image] returns has the width and height of
    its input: the pipeline is [convert], [filter], [enhance], [filter], none
    of which changes the size, and there is no other step. *)
Theorem preprocess_image_keeps_size (pil_img : image) :
  size (preprocess_image pil_img) = size pil_img /\
  preprocess_image pil_img =
    filter (enhance_contrast
              (filter (convert pil_img (txt "L")) (GaussianBlur (3 # 10)%Q))
              (12 # 10)%Q)
           (UnsharpMask (5 # 10)%Q 100 2).
Proof.
  split; [|reflexivity].
  unfold preprocess_image.
  rewrite filter_size, enhance_size, filter_size, convert_size.
  reflexivity.
Qed.

End Preprocess.

Lemma preprocess_image_keeps_size_witness :
  @size (scripted Returned) (@preprocess_image (scripted Returned) (1080, 2412)%Z)
  = (1080, 2412)%Z.
Proof.
  apply (@preprocess_image_keeps_size (scripted Returned)); reflexivity.
Defined.

Section Extract.
Context {E : Collaborators}.

(** Every exception of the body of [extract_text] is caught: the method
    returns a string. *)
Lemma extract_text_returns (cfg : OCRConfig) (pil_img : image) :
  exists text, extract_text cfg pil_img = Returned text.
Proof.
  unfold extract_text, try_except, bind.
  destruct (image_to_string _ _) as [out|msg].
  - eexists. reflexivity.
  - unfold extract_text_handler.
    destruct (_ || _); eexists; reflexivity.
Qed.

(** C4, amended: an OCR error whose message names neither of the two
    engine-missing phrases is caught, and [extract_text] returns the text
    ["OCR Error: "] followed by the message of the error. *)
Theorem extract_text_runtime_error (cfg : OCRConfig) (pil_img : image) (msg : str) :
  image_to_string (preprocess_image pil_img) (engine_config cfg) = Raised msg ->
  contains (txt "tesseract is not installed") msg = false ->
  contains (txt "tesseract: command not found") msg = false ->
  extract_text cfg pil_img = Returned (txt "OCR Error: " ++ msg) /\
  txt "OCR Error: " ++ msg <> [].
Proof.
  intros Hraise H1 H2. split.
  - unfold extract_text, try_except, bind. rewrite Hraise.
    unfold extract_text_handler. rewrite H1, H2. reflexivity.
  - discriminate.
Qed.

(** The engine is asked with the option string [tesseract_config] and no
    other: an engine that answers alike on that string gives the same
    extraction. *)
Lemma extract_text_engine_config (cfg : OCRConfig) (pil_img : image)
    (engine : image -> str -> result str) :
  (forall img, engine img (tesseract_config cfg)
               = image_to_string img (tesseract_config cfg)) ->
  @extract_text (with_engine E engine) cfg pil_img = extract_text cfg pil_img.
Proof.
  intros Hagree. unfold extract_text, engine_config. simpl.
  change (@preprocess_image (with_engine E engine) pil_img)
    with (preprocess_image pil_img).
  rewrite Hagree. reflexivity.
Qed.

(** The normaliser reads [min_text_length] and [excluded_patterns] only. *)
Lemma filter_ignores_psm (cfg : OCRConfig) (sparse filled : Z) (raw_text : str) :
  _filter_text_with_reply_pattern (set_psm cfg sparse filled) raw_text
    = _filter_text_with_reply_pattern cfg raw_text.
Proof. destruct cfg; reflexivity. Qed.

(** C7, amended.  The worker's processor makes one call of the engine, on
    the preprocessed image and with the option string [tesseract_config] of
    the configuration, for a crop and for a full page alike: the extraction
    is the normalised, stripped answer to that call, or the handler's text
    when the call raises, so an engine that differs on any other option
    string gives the same extraction.  The string is ["--psm 6"] by
    default; [psm_sparse] and [psm_filled] have no part in the extraction.
    What the full-page flag does select is the minimum length: a full-page
    worker sets it to [max(1, min_text_length // 2)], a crop worker leaves
    the configuration as it is. *)
Theorem engine_mode_is_configured (cfg : OCRConfig) (full_page : bool)
    (sparse filled : Z) (pil_img : image)
    (engine : image -> str -> result str) :
  extract_text (worker_init cfg full_page) pil_img =
    match image_to_string (preprocess_image pil_img) (tesseract_config cfg) with
    | Returned out =>
        Returned (_filter_text_with_reply_pattern (worker_init cfg full_page)
                    (strip out))
    | Raised msg => extract_text_handler msg
    end /\
  ((forall img, engine img (tesseract_config cfg)
                = image_to_string img (tesseract_config cfg)) ->
   @extract_text (with_engine E engine) (worker_init cfg full_page) pil_img
     = extract_text (worker_init cfg full_page) pil_img) /\
  extract_text (worker_init (set_psm cfg sparse filled) full_page) pil_img
    = extract_text (worker_init cfg full_page) pil_img /\
  engine_config (worker_init cfg full_page) = tesseract_config cfg /\
  engine_config (worker_init (set_psm cfg sparse filled) full_page)
    = engine_config (worker_init cfg full_page) /\
  engine_config (worker_init default_ocr full_page) = txt "--psm 6" /\
  worker_init cfg true
    = set_min_text_length cfg (Z.max 1 (min_text_length cfg / 2)) /\
  min_text_length (worker_init cfg true) = Z.max 1 (min_text_length cfg / 2) /\
  worker_init cfg false = cfg.
Proof.
  assert (Hcfg : forall c, engine_config (worker_init c full_page)
                           = tesseract_config c).
  { intros c. destruct full_page; destruct c; reflexivity. }
  split; [|split; [|split; [|split; [|split; [|split; [|split; [|split]]]]]]].
  - unfold extract_text, try_except, bind. rewrite Hcfg.
    destruct (image_to_string _ _); reflexivity.
  - intros Hagree. apply extract_text_engine_config.
    change (tesseract_config (worker_init cfg full_page))
      with (engine_config (worker_init cfg full_page)).
    rewrite Hcfg. exact Hagree.
  - unfold extract_text, try_except, bind. rewrite !Hcfg.
    change (tesseract_config (set_psm cfg sparse filled))
      with (tesseract_config cfg).
    destruct (image_to_string _ _) as [out|msg]; [|reflexivity].
    f_equal. destruct full_page.
    + apply (filter_ignores_psm
               (set_min_text_length cfg (Z.max 1 (min_text_length cfg / 2)))).
    + apply filter_ignores_psm.
  - apply Hcfg.
  - rewrite !Hcfg. reflexivity.
  - destruct full_page; reflexivity.
  - reflexivity.
  - reflexivity.
  - reflexivity.
Qed.

End Extract.

(** C4, as stated: an engine failing with ["boom"] makes [extract_text]
    return an error-message string, not the empty string. *)
Lemma extract_text_error_not_empty :
  @extract_text (scripted (fun _ => Raised (txt "boom"))) default_ocr (640, 480)%Z
    = Returned (txt "OCR Error: boom") /\
  txt "OCR Error: boom" <> txt "".
Proof. split; [reflexivity | discriminate]. Qed.

Lemma extract_text_runtime_error_witness :
  @extract_text (scripted (fun _ => Raised (txt "boom"))) default_ocr (640, 480)%Z
    = Returned (txt "OCR Error: " ++ txt "boom") /\
  txt "OCR Error: " ++ txt "boom" <> [].
Proof.
  apply (@extract_text_runtime_error (scripted (fun _ => Raised (txt "boom"))));
    reflexivity.
Defined.

Lemma engine_mode_is_configured_witness :
  let only_block (_ : Z * Z) (options : str) :=
    if str_eqb options (txt "--psm 6")
    then Returned (txt "Reply to zoe99...")
    else Raised (txt "unknown mode") in
  @extract_text (with_engine reads_zoe only_block)
     (worker_init default_ocr true) (640, 480)%Z
    = @extract_text reads_zoe (worker_init default_ocr true) (640, 480)%Z /\
  @extract_text reads_zoe (worker_init default_ocr true) (640, 480)%Z
    = Returned (txt "zoe99").
Proof.
  cbv zeta. split; [|reflexivity].
  refine (proj1 (proj2 (@engine_mode_is_configured reads_zoe default_ocr true
                          11 6 (640, 480)%Z _)) _).
  intros img. reflexivity.
Defined.

(** C7, as stated: for a crop capture under the default configuration the
    engine gets ["--psm 6"], the block mode, where the sparse mode
    ["--psm 11"] is claimed. *)
Lemma crop_capture_uses_block_mode :
  stated_engine_config default_ocr false = txt "--psm 11" /\
  engine_config (worker_init default_ocr false) = txt "--psm 6" /\
  engine_config (worker_init default_ocr false)
    <> stated_engine_config default_ocr false.
Proof. repeat split; discriminate. Qed.

End ProcessorFacts.

(* ================================================================== *)
(** ** The crop location *)
(* ================================================================== *)

Module LocationFacts.
Import PyStr Py Config Qt WebEngine.

Lemma fits_int_bounds (z : Z) :
  fits_int z = true -> (- 2 ^ 31 <= z <= 2 ^ 31 - 1)%Z.
Proof.
  unfold fits_int, int_min, int_max. intros H.
  apply andb_true_iff in H. destruct H as [H1 H2].
  apply Z.leb_le in H1. apply Z.leb_le in H2. lia.
Qed.

Lemma wrap_fits (z : Z) : fits_int z = true -> wrap z = z.
Proof.
  intros H. apply fits_int_bounds in H. unfold wrap.
  rewrite Z.mod_small; lia.
Qed.

(** Qt computes the far corner and the width back from it in C [int]s;
    the two wrap-arounds cancel. *)
Lemma wrap_extent (a n : Z) :
  fits_int n = true -> wrap (wrap (a + n - 1) - a + 1) = n.
Proof.
  intros H. rewrite <- (wrap_fits _ H) at 2. unfold wrap. f_equal.
  replace ((a + n - 1 + 2 ^ 31) mod 2 ^ 32 - 2 ^ 31 - a + 1 + 2 ^ 31)%Z
    with ((a + n - 1 + 2 ^ 31) mod 2 ^ 32 - (a - 1))%Z by lia.
  rewrite Zminus_mod_idemp_l. f_equal. lia.
Qed.

Lemma make_rect_accessors (l t w h : Z) :
  fits_int w = true -> fits_int h = true ->
  x (make_rect l t w h) = l /\ y (make_rect l t w h) = t /\
  width (make_rect l t w h) = w /\ height (make_rect l t w h) = h.
Proof.
  intros Hw Hh. unfold x, y, width, height, make_rect. simpl.
  rewrite !wrap_extent by assumption. repeat split.
Qed.

(** C10: [save_location] stores its four arguments; [has_saved_location]
    holds exactly when [remember_location] is set and the stored width and
    height are positive; and when it holds, for coordinates that are C
    [int]s (as those of a [QRect] are), restoring sets the crop rectangle to
    the stored x, y, width and height. *)
Theorem crop_location_round_trip (loc : OCRLocationConfig)
    (x0 y0 w0 h0 : Z) (v : AutomationWebView) :
  let saved := save_location loc x0 y0 w0 h0 in
  (last_crop_x saved, last_crop_y saved,
   last_crop_width saved, last_crop_height saved) = (x0, y0, w0, h0) /\
  (has_saved_location loc = true <->
   remember_location loc = true /\
   (0 < last_crop_width loc)%Z /\ (0 < last_crop_height loc)%Z) /\
  (has_saved_location saved = true ->
   fits_int x0 = true -> fits_int y0 = true ->
   fits_int w0 = true -> fits_int h0 = true ->
   exists r,
     crop_rect (_restore_last_crop_location saved v) = Some r /\
     r = make_rect x0 y0 w0 h0 /\
     (x r, y r, width r, height r) = (x0, y0, w0, h0)).
Proof.
  cbv zeta. split; [reflexivity|]. split.
  - unfold has_saved_location. rewrite !andb_true_iff, !Z.ltb_lt. tauto.
  - intros Hsaved Hx Hy Hw Hh.
    exists (make_rect x0 y0 w0 h0).
    destruct (@make_rect_accessors x0 y0 w0 h0 Hw Hh) as (Ex & Ey & Ew & Eh).
    rewrite Ex, Ey, Ew, Eh.
    unfold _restore_last_crop_location. rewrite Hsaved.
    unfold new_QRect, save_location; cbn [last_crop_x last_crop_y
      last_crop_width last_crop_height].
    rewrite Hx, Hy, Hw, Hh. repeat split.
Qed.

(** C10, as stated, at [save_location(2147483648, 0, 10, 10)]: the four
    values are stored and [has_saved_location] holds, but [QRect] takes C
    [int]s, the constructor raises [OverflowError], the handler of
    [_restore_last_crop_location] catches it and the crop rectangle stays
    unset. *)
Lemma overflowing_location_not_restored :
  let saved := save_location default_location 2147483648 0 10 10 in
  (last_crop_x saved, last_crop_y saved,
   last_crop_width saved, last_crop_height saved) = (2147483648, 0, 10, 10)%Z /\
  has_saved_location saved = true /\
  crop_rect (_restore_last_crop_location saved fresh_view) = None.
Proof. cbv zeta. repeat split. Qed.

Lemma crop_location_round_trip_witness :
  exists r,
    crop_rect (_restore_last_crop_location
                 (save_location default_location 258 2218 584 120) fresh_view)
      = Some r /\
    r = make_rect 258 2218 584 120 /\
    (x r, y r, width r, height r) = (258, 2218, 584, 120)%Z.
Proof.
  apply (crop_location_round_trip default_location 258 2218 584 120 fresh_view);
    reflexivity.
Defined.

End LocationFacts.

(* ================================================================== *)
(** ** The loop *)
(* ================================================================== *)

Module LoopFacts.
Import PyStr PyStrFacts Py Config Normalizer Qt WebEngine Processor App Vocabulary.
Import MoreVocabulary ProcessorFacts.

Section Loop.
Context {E : Collaborators}.

(** *** After stop *)

(** A callback that finds the flag cleared asks nothing of Qt and leaves
    the window as it was, the displayed OCR text apart: a worker signal
    stores its text before the flag is looked at. *)
Lemma callback_when_stopped (screen : pixmap) (w : MainWindow) (ev : event) :
  loop_active w = false ->
  is_callback ev = true ->
  handle screen w ev =
    (set_current_ocr_text w (last_ocr_text [(screen, ev)] (current_ocr_text w)), []).
Proof.
  intros Hoff Hcb.
  assert (Hsame : w = set_current_ocr_text w (current_ocr_text w))
    by (destruct w; reflexivity).
  destruct ev as [| | | | | [text pm | msg] | [ | | ] | [ | ] r];
    try discriminate Hcb; simpl.
  - unfold _on_ocr_completed. simpl. rewrite Hoff. reflexivity.
  - unfold _on_ocr_failed. simpl. rewrite Hoff. reflexivity.
  - unfold _loop_write_text. rewrite Hoff. simpl. congruence.
  - unfold _loop_proceed_to_next. rewrite Hoff. simpl. congruence.
  - unfold _automation_step. rewrite Hoff. simpl. congruence.
  - unfold _after_write_injection. rewrite Hoff. congruence.
  - congruence.
Qed.

Lemma callbacks_when_stopped (w : MainWindow) (evs : list (pixmap * event)) :
  loop_active w = false ->
  forallb (fun d => is_callback (snd d)) evs = true ->
  handle_all w evs =
    (set_current_ocr_text w (last_ocr_text evs (current_ocr_text w)), []).
Proof.
  revert w. induction evs as [|[screen ev] evs IH]; intros w Hoff Hcbs.
  - destruct w; reflexivity.
  - simpl in Hcbs. apply andb_true_iff in Hcbs. destruct Hcbs as [Hcb Hcbs].
    pose proof (callback_when_stopped screen w ev Hoff Hcb) as Ht.
    simpl. rewrite Ht.
    rewrite (IH (set_current_ocr_text w _) Hoff Hcbs). reflexivity.
Qed.

(** C8, the counterexample: the loop is stopped while a worker is still
    reading; its completion arrives afterwards.  The result is not
    discarded: the window keeps it as the current OCR text, and the Write
    button then injects it into the page. *)
Lemma late_ocr_text_is_kept :
  let stopped := fst (@_stop_loop reads_zoe looping_window) in
  let late := @worker_signal reads_zoe (@ocr_completed reads_zoe (txt "zoe99") tt) in
  let after := fst (@handle reads_zoe tt stopped late) in
  loop_active stopped = false /\
  current_ocr_text stopped = [] /\
  current_ocr_text after = txt "zoe99" /\
  after <> stopped /\
  @handle reads_zoe tt after (@write_clicked reads_zoe) =
    (after, [@runJavaScript_inject reads_zoe (txt "zoe99") (Some cb_after_injection)]).
Proof.
  cbv zeta. repeat split; try reflexivity. discriminate.
Qed.

(** C8, as the code has it: once [_stop_loop] has run, whatever completions,
    timers and script results arrive, in whatever order, none of them asks
    anything of Qt (no timer, no page script, no worker), the flag stays
    cleared, the state of the loop is not touched, and the window is as
    [_stop_loop] left it but for one field: the current OCR text is that of
    the last worker signal that arrived, the failure marker for a failed
    one; without a worker signal it is unchanged. *)
Theorem no_transition_after_stop (w : MainWindow) (evs : list (pixmap * event)) :
  forallb (fun d => is_callback (snd d)) evs = true ->
  let stopped := fst (_stop_loop w) in
  let after := fst (handle_all stopped evs) in
  snd (_stop_loop w) = [] /\
  loop_active stopped = false /\
  snd (handle_all stopped evs) = [] /\
  loop_active after = false /\
  loop_state after = loop_state w /\
  after = set_current_ocr_text stopped (last_ocr_text evs (current_ocr_text stopped)) /\
  (forallb (fun d => match snd d with worker_signal _ => false | _ => true end) evs
     = true -> after = stopped).
Proof.
  intros Hcbs. cbv zeta.
  rewrite (callbacks_when_stopped (fst (_stop_loop w)) evs eq_refl Hcbs).
  repeat split.
  intros Hnone. cbn [fst].
  assert (Hkeep : forall t, last_ocr_text evs t = t).
  { clear Hcbs. induction evs as [|[screen ev] evs IH]; intros t.
    - reflexivity.
    - simpl in Hnone. apply andb_true_iff in Hnone. destruct Hnone as [Hev Hnone].
      unfold last_ocr_text. simpl.
      destruct ev; try discriminate Hev; apply (IH Hnone). }
  rewrite Hkeep. destruct w; reflexivity.
Qed.

(** *** A missing field *)

(** The closure [_after_write_injection] looks at the flag only: whatever
    the script's result, an active loop goes on to navigate and to schedule
    the next cycle. *)
Lemma after_write_injection_navigates (w : MainWindow) (r : js_value) :
  loop_active w = true ->
  _after_write_injection w r =
    (set_current_ocr_text w [],
     [runJavaScript_navigate; singleShot (image_load_delay w) slot_automation_step]).
Proof.
  intros Hon. unfold _after_write_injection, _loop_proceed_to_next.
  rewrite Hon. simpl. rewrite Hon. reflexivity.
Qed.

(** A token without backquote, backslash, [${] and line break reaches the
    page as the body of the template literal, and the script is the one
    written. *)
Lemma js_template_literal_plain (text : str) :
  template_safe text = true ->
  forallb (fun c => negb (Ascii.eqb c CR)) text = true ->
  js_template_literal (text ++ txt "`;") = Some (text, txt ";").
Proof.
  unfold template_safe.
  induction text as [|c text IH]; intros Hsafe Hcr.
  - reflexivity.
  - apply andb_true_iff in Hsafe. destruct Hsafe as [Hchars Hsub].
    cbn [forallb] in Hcr. cbn [existsb] in Hchars.
    apply negb_true_iff in Hchars. apply orb_false_iff in Hchars.
    destruct Hchars as [Hc Hchars].
    apply andb_true_iff in Hcr. destruct Hcr as [Hccr Hcr].
    apply orb_false_iff in Hc. destruct Hc as [Hbq Hbs].
    apply negb_true_iff in Hccr.
    apply negb_true_iff in Hsub. rewrite contains_unfold in Hsub.
    apply orb_false_iff in Hsub. destruct Hsub as [Hhead Hsub].
    assert (Hrec : js_template_literal (text ++ txt "`;") = Some (text, txt ";")).
    { apply IH; [|exact Hcr].
      apply andb_true_iff. split; [apply negb_true_iff; exact Hchars|].
      apply negb_true_iff.
      destruct text as [|d text']; [reflexivity | exact Hsub]. }
    change ((c :: text) ++ txt "`;") with (c :: (text ++ txt "`;")).
    cbn [js_template_literal]. rewrite Hbq, Hbs, Hccr.
    destruct (Ascii.eqb c "$"%char) eqn:Hdollar.
    + apply Ascii.eqb_eq in Hdollar. subst c.
      destruct text as [|d text'].
      * reflexivity.
      * change ((d :: text') ++ txt "`;") with (d :: (text' ++ txt "`;")).
        change ((d :: text') ++ txt "`;") with (d :: (text' ++ txt "`;")) in Hrec.
        assert (Hd : Ascii.eqb d "{"%char = false).
        { destruct (Ascii.eqb d "{"%char) eqn:Hd; [|reflexivity].
          apply Ascii.eqb_eq in Hd. subst d. discriminate Hhead. }
        cbv beta match. rewrite Hd, Hrec. reflexivity.
    + rewrite Hrec. reflexivity.
Qed.

(** For such a token the claim holds: on a page without the field the
    script evaluates to [false] and leaves the page alone. *)
Lemma safe_token_fails_soft (text : str) (p : page) :
  template_safe text = true ->
  forallb (fun c => negb (Ascii.eqb c CR)) text = true ->
  autogrow_textarea p = None ->
  page_script text = runs (simple_script text) /\
  delivered (page_script text) p = Some (p, js_bool false).
Proof.
  intros Hsafe Hcr Hnone.
  assert (Hs : page_script text = runs (simple_script text)).
  { unfold page_script. rewrite (js_template_literal_plain text Hsafe Hcr).
    reflexivity. }
  split; [exact Hs|].
  rewrite Hs. unfold delivered, simple_script. rewrite Hnone. reflexivity.
Qed.

(** C9, at the failing input: the capture reads [Reply to a`b...], so the
    token is [a`b]; the loop is active and the page lacks the description
    field.  The write step dispatches the script with the
    [_after_write_injection] callback.  The token is put into the script
    text as it is: its backquote closes the template literal after [a], the
    identifier [b] follows the finished expression, and the page rejects the
    script.  Nothing of it runs: it does not evaluate to [false], the
    callback is handed no value.  The other half of the claim holds:
    whatever the callback is handed, the loop navigates and schedules the
    next cycle. *)
Theorem backquote_token_breaks_script (screen : pixmap) (w : MainWindow)
    (p : page) (r : js_value) :
  loop_active w = true ->
  current_ocr_text w = txt "a`b" ->
  autogrow_textarea p = None ->
  _filter_text_with_reply_pattern default_ocr (txt "Reply to a`b...") = txt "a`b" /\
  _loop_write_text w =
    (w, [runJavaScript_inject (txt "a`b") (Some cb_after_write_injection)]) /\
  js_template_literal (txt "a`b" ++ txt "`;") = Some (txt "a", txt "b`;") /\
  page_script (txt "a`b") = syntax_error /\
  delivered (page_script (txt "a`b")) p = Some (p, js_null) /\
  delivered (page_script (txt "a`b")) p <> Some (p, js_bool false) /\
  handle screen w (js_finished cb_after_write_injection r) =
    (set_current_ocr_text w [],
     [runJavaScript_navigate; singleShot (image_load_delay w) slot_automation_step]).
Proof.
  intros Hon Htext Hnone. repeat split.
  - unfold _loop_write_text. rewrite Hon, Htext. reflexivity.
  - discriminate.
  - simpl. apply after_write_injection_navigates. exact Hon.
Qed.

(** *** The token of a cycle *)

(** In loop mode the worker always emits [ocr_completed], with a text that
    is not empty. *)
Lemma loop_worker_emits_text (cfg : OCRConfig) (pm : pixmap) :
  exists text, run cfg true pm = Returned (ocr_completed text pm) /\ text <> [].
Proof.
  unfold run, try_except, bind.
  destruct (qpixmap_to_pil pm) as [img|msg].
  - destruct (extract_text_returns cfg img) as [text Ht].
    change (@extract_text E cfg img) with (extract_text cfg img).
    rewrite Ht.
    destruct (validate_text_quality cfg text) as [is_valid reason].
    destruct (truthy (strip text)) eqn:Hs.
    + exists text. split; [reflexivity|].
      intros ->. discriminate Hs.
    + exists USERNAME_OCR_FAIL. split; [reflexivity | discriminate].
  - exists USERNAME_OCR_FAIL. split; [reflexivity | discriminate].
Qed.

(** An empty or blank extraction, and an exception that reaches the
    worker, give the failure marker. *)
Lemma loop_worker_marks_blank (cfg : OCRConfig) (pm : pixmap) (img : image)
    (text : str) :
  qpixmap_to_pil pm = Returned img ->
  extract_text cfg img = Returned text ->
  strip text = [] ->
  run cfg true pm = Returned (ocr_completed USERNAME_OCR_FAIL pm).
Proof.
  intros Hpil Hext Hblank. unfold run, try_except, bind.
  rewrite Hpil, Hext, Hblank.
  destruct (validate_text_quality cfg text). reflexivity.
Qed.

Lemma loop_worker_marks_exception (cfg : OCRConfig) (pm : pixmap) (msg : str) :
  qpixmap_to_pil pm = Raised msg ->
  run cfg true pm = Returned (ocr_completed USERNAME_OCR_FAIL pm).
Proof.
  intros Hpil. unfold run, try_except, bind. rewrite Hpil. reflexivity.
Qed.

(** A completed OCR with a text is written by the next two steps of an
    active loop. *)
Lemma completed_text_is_injected (screen : pixmap) (w : MainWindow)
    (text : str) (pm : pixmap) :
  loop_active w = true ->
  text <> [] ->
  handle screen w (worker_signal (ocr_completed text pm)) =
    (set_current_ocr_text w text,
     [singleShot (description_save_delay w) slot_loop_write_text]) /\
  handle screen (set_current_ocr_text w text) (timer_fired slot_loop_write_text) =
    (set_current_ocr_text w text,
     [runJavaScript_inject text (Some cb_after_write_injection)]).
Proof.
  intros Hon Htext. apply truthy_true in Htext. split.
  - simpl. unfold _on_ocr_completed. simpl. rewrite Hon, Htext. reflexivity.
  - simpl. unfold _loop_write_text. simpl. rewrite Hon, Htext. reflexivity.
Qed.

(** C1, at the failing input: the loop is active and pytesseract reports
    the engine missing.  [extract_text] turns the exception into the text
    ["Tesseract OCR not installed"], the worker takes it for a result, and
    the loop writes it to the field where the marker [USERNAME_OCR_FAIL] is
    claimed. *)
Theorem engine_unavailable_injects_message (screen : pixmap) (w : MainWindow)
    (pm : pixmap) (img : image) :
  loop_active w = true ->
  qpixmap_to_pil pm = Returned img ->
  image_to_string (preprocess_image img) (engine_config (ocr w))
    = Raised tesseract_not_found ->
  let text := txt "Tesseract OCR not installed" in
  run (ocr w) (loop_active w) pm = Returned (ocr_completed text pm) /\
  handle screen w (worker_signal (ocr_completed text pm)) =
    (set_current_ocr_text w text,
     [singleShot (description_save_delay w) slot_loop_write_text]) /\
  handle screen (set_current_ocr_text w text) (timer_fired slot_loop_write_text) =
    (set_current_ocr_text w text,
     [runJavaScript_inject text (Some cb_after_write_injection)]) /\
  text <> USERNAME_OCR_FAIL.
Proof.
  intros Hon Hpil Hraise. cbv zeta.
  assert (Hext : extract_text (ocr w) img
                 = Returned (txt "Tesseract OCR not installed")).
  { unfold extract_text, try_except, bind. rewrite Hraise. reflexivity. }
  assert (Hne : txt "Tesseract OCR not installed" <> []) by discriminate.
  destruct (@completed_text_is_injected screen w _ pm Hon Hne) as [Hdone Hwrite].
  split; [|split; [|split]].
  - rewrite Hon. unfold run, try_except, bind. rewrite Hpil, Hext.
    destruct (validate_text_quality (ocr w) (txt "Tesseract OCR not installed")).
    reflexivity.
  - exact Hdone.
  - exact Hwrite.
  - discriminate.
Qed.

End Loop.

Lemma no_transition_after_stop_witness :
  let stopped := fst (@_stop_loop reads_zoe looping_window) in
  let after := fst (handle_all stopped late_callbacks) in
  snd (handle_all stopped late_callbacks) = [] /\
  loop_active after = false /\
  after = set_current_ocr_text stopped
            (last_ocr_text late_callbacks (current_ocr_text stopped)).
Proof.
  pose proof (@no_transition_after_stop reads_zoe looping_window
                late_callbacks eq_refl) as H.
  cbv zeta in H. destruct H as (_ & _ & H3 & H4 & _ & H6 & _).
  cbv zeta. repeat split; assumption.
Defined.

Lemma backquote_token_breaks_script_witness :
  page_script (txt "a`b") = syntax_error /\
  @handle reads_zoe tt (set_current_ocr_text looping_window (txt "a`b"))
    (@js_finished reads_zoe cb_after_write_injection js_null) =
    (set_current_ocr_text looping_window [],
     [@runJavaScript_navigate reads_zoe;
      @singleShot reads_zoe (image_load_delay looping_window) slot_automation_step]).
Proof.
  pose proof (@backquote_token_breaks_script reads_zoe tt
                (set_current_ocr_text looping_window (txt "a`b"))
                {| autogrow_textarea := None |} js_null
                eq_refl eq_refl eq_refl) as H.
  destruct H as (_ & _ & _ & H4 & _ & _ & H7). split; assumption.
Defined.

Lemma engine_unavailable_injects_message_witness :
  @handle engine_missing tt
    (set_current_ocr_text looping_window (txt "Tesseract OCR not installed"))
    (timer_fired slot_loop_write_text) =
  (set_current_ocr_text looping_window (txt "Tesseract OCR not installed"),
   [@runJavaScript_inject engine_missing (txt "Tesseract OCR not installed")
      (Some cb_after_write_injection)]).
Proof.
  apply (@engine_unavailable_injects_message engine_missing tt looping_window tt
           (640, 480)%Z);
    reflexivity.
Defined.

(** The end-to-end scenario of the specification, run on the embedding: the
    capture reads ["Reply to zoe99..."]; the cycle starts the worker, the
    worker emits ["zoe99"], the write step injects it, and the script's
    result leads to navigation and to the timer of the next cycle. *)
Example cycle_zoe99 :
  let w0 := looping_window in
  let '(w1, e1) := @handle reads_zoe tt w0 (timer_fired slot_automation_step) in
  let sig := @run reads_zoe (ocr w1) (loop_active w1) tt in
  let '(w2, e2) := @handle reads_zoe tt w1
                     (worker_signal (@ocr_completed reads_zoe (txt "zoe99") tt)) in
  let '(w3, e3) := @handle reads_zoe tt w2 (timer_fired slot_loop_write_text) in
  let '(w4, e4) := @handle reads_zoe tt w3
                     (js_finished cb_after_write_injection (js_bool true)) in
  e1 = [@worker_start reads_zoe tt false] /\
  sig = Py.Returned (@ocr_completed reads_zoe (txt "zoe99") tt) /\
  e2 = [@singleShot reads_zoe 1000 slot_loop_write_text] /\
  e3 = [@runJavaScript_inject reads_zoe (txt "zoe99")
          (Some cb_after_write_injection)] /\
  e4 = [@runJavaScript_navigate reads_zoe;
        @singleShot reads_zoe 2000 slot_automation_step] /\
  loop_active w4 = true /\ current_ocr_text w4 = [].
Proof. vm_compute. repeat split. Qed.

End LoopFacts.

(* ================================================================== *)
(** ** The matcher against the declarative reading *)
(* ================================================================== *)

Module ReFacts.
Import PyStr PyStrFacts Re Vocabulary.

Lemma span_firstn (p : ascii -> bool) (s : str) (n : nat) :
  n <= span p s -> n <= List.length s /\ forallb p (firstn n s) = true.
Proof.
  revert n. induction s as [|c s IH]; intros n Hn; simpl in *.
  - assert (n = 0) by lia. subst. split; [lia | reflexivity].
  - destruct n as [|n]; [split; [lia | reflexivity]|].
    destruct (p c) eqn:Hc; [|lia].
    destruct (IH n) as [Hlen Hall]; [lia|].
    simpl. rewrite Hc, Hall. split; [lia | reflexivity].
Qed.

Lemma firstn_span (p : ascii -> bool) (s : str) (n : nat) :
  n <= List.length s -> forallb p (firstn n s) = true -> n <= span p s.
Proof.
  revert n. induction s as [|c s IH]; intros n Hlen Hall; simpl in *.
  - lia.
  - destruct n as [|n]; [lia|].
    simpl in Hall. apply andb_true_iff in Hall. destruct Hall as [Hc Hall].
    rewrite Hc. assert (n <= span p s) by (apply IH; [lia | exact Hall]). lia.
Qed.

Lemma counts_In (it : item) (s : str) (n : nat) :
  In n (counts it s) <-> lo it <= n <= top it s.
Proof.
  unfold counts. destruct (greedy it).
  - rewrite <- in_rev, in_seq. lia.
  - rewrite in_seq. lia.
Qed.

Lemma top_spec (it : item) (s : str) (n : nat) :
  n <= top it s <->
  (forall h, hi it = Some h -> n <= h) /\
  n <= List.length s /\ forallb (cls it) (firstn n s) = true.
Proof.
  unfold top. split.
  - intros Hn. destruct (hi it) as [h|].
    + destruct (@span_firstn (cls it) s n) as [H1 H2]; [lia|].
      repeat split; try assumption. intros h' [= <-]. lia.
    + destruct (@span_firstn (cls it) s n Hn) as [H1 H2].
      repeat split; try assumption. discriminate.
  - intros (Hhi & Hlen & Hall).
    pose proof (@firstn_span _ _ _ Hlen Hall) as Hspan.
    destruct (hi it) as [h|]; [|exact Hspan].
    specialize (Hhi h eq_refl). lia.
Qed.

Lemma first_some_Some {A B : Type} (f : A -> option B) (l : list A) (b : B) :
  first_some f l = Some b -> exists a, In a l /\ f a = Some b.
Proof.
  induction l as [|a l IH]; simpl; [discriminate|].
  destruct (f a) as [b'|] eqn:Hfa.
  - intros [= <-]. exists a. split; [left; reflexivity | exact Hfa].
  - intros H. destruct (IH H) as (a' & Hin & Ha'). exists a'. split; [right|]; assumption.
Qed.

Lemma first_some_hit {A B : Type} (f : A -> option B) (l : list A) (a : A) (b : B) :
  In a l -> f a = Some b -> exists b', first_some f l = Some b'.
Proof.
  induction l as [|a0 l IH]; simpl; [tauto|].
  intros [-> | Hin] Hfa.
  - rewrite Hfa. exists b. reflexivity.
  - destruct (f a0) as [b0|]; [exists b0; reflexivity|].
    exact (IH Hin Hfa).
Qed.

(** The matcher finds only matches ... *)
Lemma match_here_sound (p : pattern) (s g : str) :
  match_here p s = Some g -> matches p s g.
Proof.
  revert s g. induction p as [|it p IH]; intros s g H; simpl in H.
  - injection H as <-. constructor.
  - apply first_some_Some in H. destruct H as (n & Hin & Hn).
    destruct (match_here p (skipn n s)) as [g'|] eqn:Hrest; [|discriminate].
    injection Hn as <-.
    apply counts_In in Hin. destruct Hin as [Hlo Htop].
    apply top_spec in Htop. destruct Htop as (Hhi & Hlen & Hall).
    constructor; auto.
Qed.

(** ... and finds one whenever there is one. *)
Lemma match_here_complete (p : pattern) (s g : str) :
  matches p s g -> exists g', match_here p s = Some g'.
Proof.
  induction 1 as [s | it p s g n Hlo Hhi Hlen Hall Hm [g' IH]]; simpl.
  - exists []. reflexivity.
  - apply (@first_some_hit _ _ _ _ n
             ((if grp it then firstn n s else []) ++ g')).
    + apply counts_In. split; [exact Hlo|]. apply top_spec. auto.
    + rewrite IH. reflexivity.
Qed.

Lemma search_sound (p : pattern) (s g : str) :
  search p s = Some g ->
  exists pre rest, s = pre ++ rest /\ match_here p rest = Some g.
Proof.
  induction s as [|c s IH]; simpl.
  - destruct (match_here p []) as [g'|] eqn:Hm; [|discriminate].
    intros [= <-]. exists [], []. split; [reflexivity | exact Hm].
  - destruct (match_here p (c :: s)) as [g'|] eqn:Hm.
    + intros [= <-]. exists [], (c :: s). split; [reflexivity | exact Hm].
    + intros H. destruct (IH H) as (pre & rest & -> & Hr).
      exists (c :: pre), rest. split; [reflexivity | exact Hr].
Qed.

Lemma search_unfold (p : pattern) (s : str) :
  search p s =
  match match_here p s with
  | Some g => Some g
  | None => match s with [] => None | _ :: s' => search p s' end
  end.
Proof. destruct s; reflexivity. Qed.

Lemma search_complete (p : pattern) (pre rest g : str) :
  match_here p rest = Some g -> exists g', search p (pre ++ rest) = Some g'.
Proof.
  intros Hm. induction pre as [|c pre [g' IH]]; simpl.
  - exists g. rewrite search_unfold, Hm. reflexivity.
  - destruct (match_here p (c :: pre ++ rest)) as [g0|].
    + exists g0. reflexivity.
    + exists g'. exact IH.
Qed.

(** The leftmost position wins: no position before the one found
    matches. *)
Lemma search_leftmost (p : pattern) (s : str) :
  search p s = None -> forall pre rest, s = pre ++ rest -> match_here p rest = None.
Proof.
  intros Hnone pre rest ->.
  destruct (match_here p rest) as [g|] eqn:Hm; [|reflexivity].
  destruct (@search_complete p pre rest g Hm) as [g' Hg']. congruence.
Qed.

End ReFacts.

(* ================================================================== *)
(** ** The marker rules of the normaliser *)
(* ================================================================== *)

Module MarkerFacts.
Import PyStr PyStrFacts Re ReFacts Config Normalizer Vocabulary.

Lemma firstn_length_app (a b : str) : firstn (List.length a) (a ++ b) = a.
Proof. induction a as [|c a IH]; simpl; [reflexivity | now rewrite IH]. Qed.

Lemma skipn_length_app (a b : str) : skipn (List.length a) (a ++ b) = b.
Proof. induction a as [|c a IH]; simpl; [reflexivity | exact IH]. Qed.

Lemma matches_cons_eq (it : item) (p : pattern) (s g g0 : str) (n : nat) :
  lo it <= n ->
  (forall h, hi it = Some h -> n <= h) ->
  n <= List.length s ->
  forallb (cls it) (firstn n s) = true ->
  matches p (skipn n s) g ->
  g0 = (if grp it then firstn n s else []) ++ g ->
  matches (it :: p) s g0.
Proof. intros ? ? ? ? ? ->. now constructor. Qed.

Lemma matches_nil_inv (s g : str) : matches [] s g -> g = [].
Proof. inversion 1. reflexivity. Qed.

(** An item takes a prefix of the text: its characters are in the class,
    their number within the bounds. *)
Lemma matches_cons_inv (it : item) (p : pattern) (s g : str) :
  matches (it :: p) s g ->
  exists taken rest g',
    s = taken ++ rest /\
    lo it <= List.length taken /\
    (forall h, hi it = Some h -> List.length taken <= h) /\
    forallb (cls it) taken = true /\
    matches p rest g' /\
    g = (if grp it then taken else []) ++ g'.
Proof.
  inversion 1 as [| it' p' s' g' n Hlo Hhi Hlen Hall Hm]; subst.
  exists (firstn n s), (skipn n s), g'.
  rewrite firstn_skipn, length_firstn, Nat.min_l by exact Hlen.
  repeat split; auto.
Qed.

Lemma matches_cons_intro (it : item) (p : pattern) (taken rest g : str) :
  lo it <= List.length taken ->
  (forall h, hi it = Some h -> List.length taken <= h) ->
  forallb (cls it) taken = true ->
  matches p rest g ->
  matches (it :: p) (taken ++ rest) ((if grp it then taken else []) ++ g).
Proof.
  intros Hlo Hhi Hall Hm.
  apply (@matches_cons_eq it p (taken ++ rest) g _ (List.length taken));
    try assumption.
  - rewrite length_app. lia.
  - rewrite firstn_length_app. exact Hall.
  - rewrite skipn_length_app. exact Hm.
  - rewrite firstn_length_app. reflexivity.
Qed.

(** A literal under [re.I] takes the same characters up to case. *)
Lemma literal_inv (l : str) (p : pattern) (s g : str) :
  matches (map lit_ci l ++ p) s g ->
  exists m rest,
    s = m ++ rest /\ map lower_char m = map lower_char l /\ matches p rest g.
Proof.
  revert s. induction l as [|c l IH]; intros s H; simpl in H.
  - exists [], s. repeat split. exact H.
  - apply matches_cons_inv in H.
    destruct H as (taken & rest & g' & -> & Hlo & Hhi & Hall & Hm & ->).
    simpl in Hlo, Hhi, Hall. specialize (Hhi 1 eq_refl).
    destruct taken as [|a [|b taken]]; simpl in Hlo, Hhi; try lia.
    simpl in Hall. rewrite andb_true_r in Hall. apply Ascii.eqb_eq in Hall.
    destruct (IH _ Hm) as (m & rest' & -> & Hlow & Hm').
    exists (a :: m), rest'. simpl. rewrite Hall, Hlow. repeat split. exact Hm'.
Qed.

Lemma literal_intro (l m : str) (p : pattern) (rest g : str) :
  map lower_char m = map lower_char l ->
  matches p rest g ->
  matches (map lit_ci l ++ p) (m ++ rest) g.
Proof.
  revert m. induction l as [|c l IH]; intros m Hlow Hm.
  - destruct m; [exact Hm | discriminate].
  - destruct m as [|a m]; [discriminate|].
    simpl in Hlow. injection Hlow as Ha Hlow.
    change ((a :: m) ++ rest) with ([a] ++ (m ++ rest)).
    change g with ((if grp (lit_ci c) then [a] else []) ++ g).
    simpl map. simpl app at 1.
    apply matches_cons_intro; simpl; auto.
    + intros h [= <-]. lia.
    + rewrite Ha, Ascii.eqb_refl. reflexivity.
Qed.

Lemma lower_dot (c : ascii) : lower_char c = "."%char -> c = "."%char.
Proof.
  destruct c as [[] [] [] [] [] [] [] []]; vm_compute; intros H;
    try discriminate H; reflexivity.
Qed.

Lemma lower_r_not_space (c : ascii) : lower_char c = "r"%char -> isspace c = false.
Proof.
  destruct c as [[] [] [] [] [] [] [] []]; vm_compute; intros H;
    try discriminate H; reflexivity.
Qed.

Lemma dots_exact (m : str) :
  map lower_char m = map lower_char (txt "...") -> m = txt "...".
Proof.
  destruct m as [|a [|b [|c [|d m]]]]; try discriminate.
  simpl. intros H. injection H as Ha Hb Hc.
  apply lower_dot in Ha, Hb, Hc. subst. reflexivity.
Qed.

(** What a match of the ellipsis-free pattern is. *)
Lemma reply_plain_inv (s g : str) :
  matches reply_plain s g ->
  exists m ws post,
    s = m ++ ws ++ g ++ post /\ is_marker m /\
    ws <> [] /\ forallb isspace ws = true /\
    2 <= List.length g <= 60 /\ forallb not_newline g = true.
Proof.
  intros H. unfold reply_plain, literal_ci in H.
  apply literal_inv in H. destruct H as (m & r1 & -> & Hm & H).
  apply matches_cons_inv in H.
  destruct H as (ws & r2 & g1 & -> & Hlo & _ & Hws & H & ->).
  apply matches_cons_inv in H.
  destruct H as (run & post & g2 & -> & Hlo2 & Hhi2 & Hrun & H & ->).
  apply matches_nil_inv in H. subst g2. simpl in *.
  specialize (Hhi2 60 eq_refl).
  exists m, ws, post. rewrite app_nil_r. repeat split; auto; try lia.
  intros ->. simpl in Hlo. lia.
Qed.

(** What a match of the ellipsis pattern is. *)
Lemma reply_ellipsis_inv (s g : str) :
  matches reply_ellipsis s g ->
  exists m ws post,
    s = m ++ ws ++ g ++ txt "..." ++ post /\ is_marker m /\
    ws <> [] /\ forallb isspace ws = true /\
    2 <= List.length g <= 60 /\ forallb not_newline g = true.
Proof.
  intros H. unfold reply_ellipsis, literal_ci in H.
  apply literal_inv in H. destruct H as (m & r1 & -> & Hm & H).
  simpl app in H.
  apply matches_cons_inv in H.
  destruct H as (ws & r2 & g1 & -> & Hlo & _ & Hws & H & ->).
  apply matches_cons_inv in H.
  destruct H as (run & r3 & g2 & -> & Hlo2 & Hhi2 & Hrun & H & ->).
  change (matches (map lit_ci (txt "...") ++ []) r3 g2) in H.
  apply literal_inv in H. destruct H as (dots & post & -> & Hdots & H).
  apply matches_nil_inv in H. subst g2. apply dots_exact in Hdots. subst dots.
  simpl in Hlo, Hlo2, Hhi2, Hws, Hrun. specialize (Hhi2 60 eq_refl).
  exists m, ws, post. cbn [grp run_lazy spaces1]. rewrite app_nil_r.
  repeat split; auto; try lia.
  intros ->. simpl in Hlo. lia.
Qed.

(** Where the marker, white space and a run of 2 to 60 characters stand,
    the ellipsis-free pattern matches. *)
Lemma reply_plain_intro (m ws g post : str) :
  is_marker m ->
  ws <> [] -> forallb isspace ws = true ->
  2 <= List.length g <= 60 -> forallb not_newline g = true ->
  matches reply_plain (m ++ ws ++ g ++ post) (g ++ []).
Proof.
  intros Hm Hne Hws Hlen Hrun. unfold reply_plain, literal_ci.
  apply literal_intro; [exact Hm|].
  change (g ++ []) with
    ((if grp spaces1 then ws else []) ++
     (if grp (run_greedy 2 60) then g else []) ++ []).
  apply matches_cons_intro; simpl; auto.
  - destruct ws; [congruence | simpl; lia].
  - discriminate.
  - apply matches_cons_intro; simpl; try lia; auto.
    + intros h [= <-]. lia.
    + constructor.
Qed.

Lemma marker_run_found (s : str) :
  (exists g, marker_then_run 2 60 s g) ->
  exists g, search reply_plain s = Some g.
Proof.
  intros (g & pre & m & ws & post & -> & Hm & Hne & Hws & Hlen & Hrun).
  pose proof (@reply_plain_intro m ws g post Hm Hne Hws Hlen Hrun) as H.
  apply match_here_complete in H. destruct H as [g' Hg'].
  exact (@search_complete reply_plain pre _ g' Hg').
Qed.

(** Where the run is followed by an ellipsis, the ellipsis pattern matches
    too. *)
Lemma reply_ellipsis_intro (m ws g post : str) :
  is_marker m ->
  ws <> [] -> forallb isspace ws = true ->
  2 <= List.length g <= 60 -> forallb not_newline g = true ->
  matches reply_ellipsis (m ++ ws ++ g ++ txt "..." ++ post) (g ++ []).
Proof.
  intros Hm Hne Hws Hlen Hrun. unfold reply_ellipsis, literal_ci.
  apply literal_intro; [exact Hm|].
  change (g ++ []) with
    ((if grp spaces1 then ws else []) ++
     (if grp (run_lazy 2 60) then g else []) ++ []).
  simpl app at 3.
  apply matches_cons_intro; simpl; auto.
  - destruct ws; [congruence | simpl; lia].
  - discriminate.
  - apply matches_cons_intro; simpl; try lia; auto.
    + intros h [= <-]. lia.
    + change (matches (map lit_ci (txt "...") ++ []) (txt "..." ++ post) []).
      apply literal_intro; [reflexivity | constructor].
Qed.

Lemma ellipsis_run_found (s : str) :
  (exists g, marker_then_run_dots 2 60 s g) ->
  exists g, search reply_ellipsis s = Some g.
Proof.
  intros (g & pre & m & ws & post & -> & Hm & Hne & Hws & Hlen & Hrun).
  pose proof (@reply_ellipsis_intro m ws g post Hm Hne Hws Hlen Hrun) as H.
  apply match_here_complete in H. destruct H as [g' Hg'].
  exact (@search_complete reply_ellipsis pre _ g' Hg').
Qed.

Lemma search_plain_run (s g : str) :
  search reply_plain s = Some g -> marker_then_run 2 60 s g.
Proof.
  intros H. apply search_sound in H. destruct H as (pre & rest & -> & H).
  apply match_here_sound, reply_plain_inv in H.
  destruct H as (m & ws & post & -> & H). exists pre, m, ws, post.
  split; [reflexivity | exact H].
Qed.

Lemma search_ellipsis_run (s g : str) :
  search reply_ellipsis s = Some g -> marker_then_run_dots 2 60 s g.
Proof.
  intros H. apply search_sound in H. destruct H as (pre & rest & -> & H).
  apply match_here_sound, reply_ellipsis_inv in H.
  destruct H as (m & ws & post & -> & H). exists pre, m, ws, post.
  split; [reflexivity | exact H].
Qed.

(** *** From the searches to the token *)

Lemma filter_past_checks (cfg : OCRConfig) (raw_text : str) :
  passes_checks cfg raw_text = true ->
  _filter_text_with_reply_pattern cfg raw_text =
  match first_three_words (strip raw_text)
          (strip_ellipsis (reply_user (strip raw_text))) with
  | Some u => if truthy u then u else txt "NO USER"
  | None => txt "NO USER"
  end.
Proof.
  unfold passes_checks. rewrite !andb_true_iff, !negb_true_iff.
  intros [[Ht Hlen] Hex]. unfold _filter_text_with_reply_pattern.
  rewrite Ht, Hlen, Hex. reflexivity.
Qed.

Lemma strip_ellipsis_clean (g : str) :
  strip_ellipsis (Some (strip g)) = Some (clean_run g).
Proof.
  unfold strip_ellipsis, clean_run.
  destruct (strip g) as [|c u]; [reflexivity|].
  simpl truthy. rewrite andb_true_l.
  destruct (endswith (c :: u) (txt "...")); reflexivity.
Qed.

(** A text with a character that is not white space splits into words, the
    first of which is not empty. *)
Lemma split_from_first (s cur : str) :
  cur <> [] \/ existsb (fun c => negb (isspace c)) s = true ->
  exists t ts, split_from cur s = t :: ts /\ t <> [].
Proof.
  revert cur. induction s as [|c s IH]; intros cur H; simpl.
  - destruct H as [H|H]; [|discriminate].
    destruct cur as [|a cur]; [congruence|].
    exists (rev (a :: cur)), []. split; [reflexivity|].
    simpl. intros Heq. apply app_eq_nil in Heq. destruct Heq; discriminate.
  - destruct (isspace c) eqn:Hc.
    + destruct cur as [|a cur].
      * apply IH. right. destruct H as [H|H]; [congruence|].
        simpl in H. rewrite Hc in H. exact H.
      * exists (rev (a :: cur)), (split_from [] s). split; [reflexivity|].
        simpl. intros Heq. apply app_eq_nil in Heq. destruct Heq; discriminate.
    + apply IH. left. discriminate.
Qed.

Lemma replace_keeps_words (s : str) :
  existsb (fun c => negb (isspace c)) s = true ->
  existsb (fun c => negb (isspace c)) (replace_char LF SP s) = true.
Proof.
  rewrite !existsb_exists. intros (c & Hin & Hc).
  exists c. split; [|exact Hc].
  unfold replace_char. apply in_map_iff. exists c. split; [|exact Hin].
  destruct (Ascii.eqb c LF) eqn:Heq; [|reflexivity].
  apply Ascii.eqb_eq in Heq. subst c. discriminate Hc.
Qed.

Lemma three_words_not_empty (raw : str) :
  existsb (fun c => negb (isspace c)) raw = true ->
  first_three_words raw (Some []) = Some (three_words raw) /\
  three_words raw <> [].
Proof.
  intros H. apply replace_keeps_words in H.
  destruct (@split_from_first (replace_char LF SP raw) [] (or_intror H))
    as (t & ts & Hsplit & Ht).
  unfold first_three_words, three_words, split. simpl opt_truthy. cbv iota.
  rewrite Hsplit. split; [reflexivity|].
  destruct t as [|a t]; [congruence|].
  change (firstn 3 ((a :: t) :: ts)) with ((a :: t) :: firstn 2 ts).
  destruct (firstn 2 ts); simpl; intros Heq; discriminate Heq.
Qed.

Lemma marker_has_word (m : str) :
  is_marker m -> existsb (fun c => negb (isspace c)) m = true.
Proof.
  unfold is_marker. destruct m as [|c m]; [discriminate|].
  intros H. cbn [txt list_ascii_of_string map] in H. injection H as Hc _.
  cbn [existsb]. rewrite (lower_r_not_space _ Hc). reflexivity.
Qed.

Lemma run_has_word (s g : str) :
  marker_then_run 2 60 s g -> existsb (fun c => negb (isspace c)) s = true.
Proof.
  intros (pre & m & ws & post & -> & Hm & _).
  rewrite !existsb_app, (marker_has_word Hm).
  rewrite orb_true_l. apply orb_true_r.
Qed.

Lemma dots_run_is_run (s g : str) :
  marker_then_run_dots 2 60 s g -> marker_then_run 2 60 s g.
Proof.
  intros (pre & m & ws & post & -> & H).
  exists pre, m, ws, (txt "..." ++ post). split; [reflexivity | exact H].
Qed.

(** The token, once one of the searches has captured [g]. *)
Lemma token_of_run (cfg : OCRConfig) (raw_text g : str) :
  passes_checks cfg raw_text = true ->
  reply_user (strip raw_text) = Some (strip g) ->
  marker_then_run 2 60 (strip raw_text) g ->
  (clean_run g <> [] -> _filter_text_with_reply_pattern cfg raw_text = clean_run g) /\
  (clean_run g = [] ->
   _filter_text_with_reply_pattern cfg raw_text = three_words (strip raw_text)).
Proof.
  intros Hpass Huser Hrun.
  rewrite (filter_past_checks _ _ Hpass), Huser, strip_ellipsis_clean.
  split; intros Hclean.
  - unfold first_three_words. simpl opt_truthy.
    rewrite (truthy_true Hclean). rewrite (truthy_true Hclean). reflexivity.
  - rewrite Hclean.
    destruct (three_words_not_empty _ (run_has_word Hrun)) as [Hwords Hne].
    match goal with
    | |- match ?user with Some _ => _ | None => _ end = _ =>
        replace user with (Some (three_words (strip raw_text)))
          by (symmetry; exact Hwords)
    end.
    rewrite (truthy_true Hne). reflexivity.
Qed.

(** C3, as stated: ["Reply to a"] passes the checks and holds the marker
    followed by the one-character run ["a"], yet the normaliser returns the
    first three words, ["Reply to a"], not the run. *)
Lemma one_character_run_not_captured :
  passes_checks default_ocr (txt "Reply to a") = true /\
  stated_marker_token (strip (txt "Reply to a")) = Some (txt "a") /\
  _filter_text_with_reply_pattern default_ocr (txt "Reply to a") = txt "Reply to a" /\
  _filter_text_with_reply_pattern default_ocr (txt "Reply to a") <> txt "a".
Proof. repeat split; discriminate. Qed.

(** C3, amended: for a raw text that passes the length and excluded-pattern
    checks and, once stripped, holds the marker (in any casing), then white
    space, then a run of 2 to 60 characters other than LF and CR: one of the
    two searches captures a run [g] that stands so in the text, the ellipsis
    search being the one used if it matches (its run is followed by ["..."])
    and the ellipsis-free one only otherwise, that is when no such run
    followed by an ellipsis stands in the text; the token is [g] with the white
    space around it trimmed, a terminating ellipsis stripped and the white
    space before it trimmed, when that is not empty, and the first three
    words of the text when it is. *)
Theorem reply_marker_token (cfg : OCRConfig) (raw_text : str) :
  passes_checks cfg raw_text = true ->
  (exists g, marker_then_run 2 60 (strip raw_text) g) ->
  exists g,
    (search reply_ellipsis (strip raw_text) = Some g /\
     marker_then_run_dots 2 60 (strip raw_text) g
     \/
     search reply_ellipsis (strip raw_text) = None /\
     (forall g', ~ marker_then_run_dots 2 60 (strip raw_text) g') /\
     search reply_plain (strip raw_text) = Some g /\
     marker_then_run 2 60 (strip raw_text) g) /\
    (clean_run g <> [] ->
     _filter_text_with_reply_pattern cfg raw_text = clean_run g) /\
    (clean_run g = [] ->
     _filter_text_with_reply_pattern cfg raw_text = three_words (strip raw_text)).
Proof.
  intros Hpass Hrun. apply marker_run_found in Hrun. destruct Hrun as [g2 Hplain].
  destruct (search reply_ellipsis (strip raw_text)) as [g1|] eqn:Hdots.
  - exists g1. pose proof (search_ellipsis_run _ Hdots) as Hrun1. split.
    + left. split; [reflexivity | exact Hrun1].
    + apply token_of_run; [exact Hpass | | exact (dots_run_is_run Hrun1)].
      unfold reply_user. rewrite Hdots. reflexivity.
  - exists g2. pose proof (search_plain_run _ Hplain) as Hrun2. split.
    + right. split; [reflexivity|]. split; [|split; assumption].
      intros g' Hg'.
      destruct (ellipsis_run_found (ex_intro _ g' Hg')) as [g1 Hg1]. congruence.
    + apply token_of_run; [exact Hpass | | exact Hrun2].
      unfold reply_user. rewrite Hdots, Hplain. reflexivity.
Qed.

Lemma reply_marker_token_witness :
  exists g,
    (search reply_ellipsis (strip (txt "  Reply to zoe99...  ")) = Some g /\
     marker_then_run_dots 2 60 (strip (txt "  Reply to zoe99...  ")) g
     \/
     search reply_ellipsis (strip (txt "  Reply to zoe99...  ")) = None /\
     (forall g', ~ marker_then_run_dots 2 60 (strip (txt "  Reply to zoe99...  ")) g') /\
     search reply_plain (strip (txt "  Reply to zoe99...  ")) = Some g /\
     marker_then_run 2 60 (strip (txt "  Reply to zoe99...  ")) g) /\
    (clean_run g <> [] ->
     _filter_text_with_reply_pattern default_ocr (txt "  Reply to zoe99...  ")
       = clean_run g) /\
    (clean_run g = [] ->
     _filter_text_with_reply_pattern default_ocr (txt "  Reply to zoe99...  ")
       = three_words (strip (txt "  Reply to zoe99...  "))).
Proof.
  apply (reply_marker_token default_ocr (txt "  Reply to zoe99...  ")).
  - reflexivity.
  - exists (txt "zoe99"), [], (txt "Reply to"), (txt " "), (txt "...").
    repeat split; simpl; try lia; discriminate.
Defined.

(** The examples of the specification that the code agrees with. *)
Example normalize_ellipsis :
  _filter_text_with_reply_pattern default_ocr (txt "Reply to alice123...") = txt "alice123".
Proof. reflexivity. Qed.

Example normalize_plain :
  _filter_text_with_reply_pattern default_ocr (txt "Reply to bob_the_builder")
    = txt "bob_the_builder".
Proof. reflexivity. Qed.

Example normalize_three_words :
  _filter_text_with_reply_pattern default_ocr (txt "random unrelated words here")
    = txt "random unrelated words".
Proof. reflexivity. Qed.

Example normalize_blank_run :
  _filter_text_with_reply_pattern default_ocr (txt "Reply to   ...") = txt "Reply to ...".
Proof. reflexivity. Qed.

Example normalize_lazy_run :
  _filter_text_with_reply_pattern default_ocr
    (txt "xx reply TO   zoe99 ... and more... x") = txt "zoe99".
Proof. reflexivity. Qed.

(** The file separator (code 28) is white space for [\s] and [strip]. *)
Example normalize_separator :
  _filter_text_with_reply_pattern default_ocr
    (txt "Reply to" ++ [ascii_of_N 28] ++ txt "ab") = txt "ab".
Proof. reflexivity. Qed.

(** The leftmost marker wins; a second one falls inside the run. *)
Example normalize_leftmost :
  _filter_text_with_reply_pattern default_ocr (txt "Reply to reply to  ab...")
    = txt "reply to  ab".
Proof. reflexivity. Qed.

(** A run of more than 60 characters is cut at 60. *)
Example normalize_long_run :
  _filter_text_with_reply_pattern default_ocr
    (txt "Reply to " ++ repeat "y"%char 70 ++ txt "...") = repeat "y"%char 60.
Proof. vm_compute. reflexivity. Qed.

(** ["NO USER"] is reached by a blank text when no length is required. *)
Example normalize_blank_no_user :
  _filter_text_with_reply_pattern (set_min_text_length default_ocr 0) (txt " ")
    = txt "NO USER".
Proof. reflexivity. Qed.

End MarkerFacts.

(* ================================================================== *)
(** ** White space at the ends of a text *)
(* ================================================================== *)

Unset Implicit Arguments.

Module StripFacts.
Import PyStr PyStrFacts Re MoreVocabulary.

Lemma lstrip_clean (s : str) : starts_clean s = true -> lstrip s = s.
Proof.
  destruct s as [|c s]; [reflexivity|]. simpl. intros H.
  apply negb_true_iff in H. rewrite H. reflexivity.
Qed.

Lemma lstrip_starts_clean (s : str) : starts_clean (lstrip s) = true.
Proof.
  induction s as [|c s IH]; [reflexivity|]. simpl.
  destruct (isspace c) eqn:Hc; [exact IH|]. simpl. rewrite Hc. reflexivity.
Qed.

Lemma lstrip_app_word (a b : str) (c : ascii) :
  isspace c = false -> lstrip (a ++ c :: b) = lstrip a ++ c :: b.
Proof.
  intros Hc. induction a as [|x a IH]; simpl.
  - rewrite Hc. reflexivity.
  - destruct (isspace x); [exact IH | reflexivity].
Qed.

Lemma rstrip_cons_word (c : ascii) (s : str) :
  isspace c = false -> rstrip (c :: s) = c :: rstrip s.
Proof.
  intros Hc. unfold rstrip. simpl rev.
  rewrite (lstrip_app_word (rev s) [] c Hc), rev_app_distr. reflexivity.
Qed.

Lemma rstrip_starts_clean (s : str) :
  starts_clean s = true -> starts_clean (rstrip s) = true.
Proof.
  destruct s as [|c s]; [reflexivity|]. simpl. intros H.
  apply negb_true_iff in H. rewrite (rstrip_cons_word c s H). simpl.
  rewrite H. reflexivity.
Qed.

Lemma firstn_starts_clean (k : nat) (s : str) :
  starts_clean s = true -> starts_clean (firstn k s) = true.
Proof. destruct s as [|c s], k as [|k]; simpl; auto. Qed.

Lemma strip_of_stripped (s : str) : is_stripped s = true -> strip s = s.
Proof.
  unfold is_stripped. intros H. apply andb_true_iff in H. destruct H as [H1 H2].
  unfold strip, rstrip. rewrite (lstrip_clean _ H1), (lstrip_clean _ H2).
  apply rev_involutive.
Qed.

Lemma rstrip_is_stripped (s : str) :
  starts_clean s = true -> is_stripped (rstrip s) = true.
Proof.
  intros H. unfold is_stripped. rewrite (rstrip_starts_clean _ H). simpl.
  unfold rstrip. rewrite rev_involutive. apply lstrip_starts_clean.
Qed.

Lemma strip_is_stripped (s : str) : is_stripped (strip s) = true.
Proof. apply rstrip_is_stripped, lstrip_starts_clean. Qed.

Lemma In_lstrip (s : str) (c : ascii) : In c (lstrip s) -> In c s.
Proof.
  induction s as [|x s IH]; simpl; [tauto|].
  destruct (isspace x); simpl; tauto.
Qed.

Lemma In_rstrip (s : str) (c : ascii) : In c (rstrip s) -> In c s.
Proof.
  unfold rstrip. intros H. apply in_rev in H. apply In_lstrip in H.
  apply in_rev. exact H.
Qed.

Lemma In_strip (s : str) (c : ascii) : In c (strip s) -> In c s.
Proof. unfold strip. intros H. apply In_lstrip, In_rstrip, H. Qed.

Lemma In_firstn (k : nat) (s : str) (c : ascii) : In c (firstn k s) -> In c s.
Proof.
  revert k. induction s as [|x s IH]; intros [|k]; simpl; try tauto.
  intros [H|H]; [left; exact H | right; exact (IH _ H)].
Qed.

Lemma forallb_sub (P : ascii -> bool) (s t : str) :
  (forall c, In c t -> In c s) -> forallb P s = true -> forallb P t = true.
Proof.
  rewrite !forallb_forall. intros Hsub H c Hc. apply H, Hsub, Hc.
Qed.

Lemma word_not_newline (c : ascii) : isspace c = false -> not_newline c = true.
Proof.
  intros H. unfold not_newline.
  destruct (Ascii.eqb c LF) eqn:E1.
  - apply Ascii.eqb_eq in E1. subst. discriminate H.
  - destruct (Ascii.eqb c CR) eqn:E2; [|reflexivity].
    apply Ascii.eqb_eq in E2. subst. discriminate H.
Qed.

(** A stripped text that is not empty has a word. *)
Lemma starts_clean_has_word (s : str) :
  s <> [] -> starts_clean s = true -> has_word s = true.
Proof.
  destruct s as [|c s]; [congruence|]. simpl. intros _ H. rewrite H. reflexivity.
Qed.

(** *** The words of [split] *)

Lemma split_from_words (s cur : str) :
  forallb (fun c => negb (isspace c)) cur = true ->
  Forall (fun t => t <> [] /\ forallb (fun c => negb (isspace c)) t = true)
         (split_from cur s).
Proof.
  revert cur. induction s as [|c s IH]; intros cur Hcur; simpl.
  - destruct cur as [|a cur]; constructor; [|constructor]. split.
    + simpl. intros H. apply app_eq_nil in H. destruct H; discriminate.
    + apply (forallb_sub _ (a :: cur) _); [|exact Hcur].
      intros x Hx. apply in_rev. exact Hx.
  - destruct (isspace c) eqn:Hc.
    + destruct cur as [|a cur]; [apply IH; reflexivity|].
      constructor; [|apply IH; reflexivity]. split.
      * simpl. intros H. apply app_eq_nil in H. destruct H; discriminate.
      * apply (forallb_sub _ (a :: cur) _); [|exact Hcur].
        intros x Hx. apply in_rev. exact Hx.
    + apply IH. simpl. rewrite Hc, Hcur. reflexivity.
Qed.

Lemma Forall_firstn_words (P : str -> Prop) (k : nat) (l : list str) :
  Forall P l -> Forall P (firstn k l).
Proof.
  intros H. revert k. induction H as [|t l Ht Hl IH]; intros [|k]; simpl;
    constructor; auto.
Qed.

Lemma words_clean (t : str) :
  forallb (fun c => negb (isspace c)) t = true ->
  starts_clean t = true /\ starts_clean (rev t) = true /\ single_line t = true.
Proof.
  intros H. rewrite forallb_forall in H. repeat split.
  - destruct t as [|c t]; [reflexivity|]. apply H. left. reflexivity.
  - destruct (rev t) as [|c r] eqn:Hr; [reflexivity|]. simpl. apply H.
    apply in_rev. rewrite Hr. left. reflexivity.
  - unfold single_line. apply forallb_forall. intros c Hc.
    apply word_not_newline, negb_true_iff, H, Hc.
Qed.

(** Words joined by single blanks: one line, no blank at either end. *)
Lemma join_words (t : str) (l : list str) :
  Forall (fun t => t <> [] /\ forallb (fun c => negb (isspace c)) t = true)
         (t :: l) ->
  join (txt " ") (t :: l) <> [] /\
  starts_clean (join (txt " ") (t :: l)) = true /\
  starts_clean (rev (join (txt " ") (t :: l))) = true /\
  single_line (join (txt " ") (t :: l)) = true.
Proof.
  revert t. induction l as [|t2 l IH]; intros t H.
  - inversion H as [|? ? [Hne Hw] _]; subst.
    destruct (words_clean _ Hw) as (H1 & H2 & H3). simpl. auto.
  - inversion H as [|? ? [Hne Hw] Hrest]; subst.
    destruct (IH t2 Hrest) as (Rne & R1 & R2 & R3).
    destruct (words_clean _ Hw) as (H1 & H2 & H3).
    change (join (txt " ") (t :: t2 :: l))
      with (t ++ txt " " ++ join (txt " ") (t2 :: l)).
    repeat split.
    + destruct t; [congruence | discriminate].
    + destruct t; [congruence | exact H1].
    + rewrite !rev_app_distr.
      destruct (rev (join (txt " ") (t2 :: l))) as [|c r] eqn:Hr.
      * exfalso. apply Rne. rewrite <- (rev_involutive (join _ _)), Hr.
        reflexivity.
      * exact R2.
    + unfold single_line in *. rewrite !forallb_app, H3, R3. reflexivity.
Qed.

End StripFacts.

(* ================================================================== *)
(** ** The normaliser as a whole *)
(* ================================================================== *)

Module TokenFacts.
Import PyStr PyStrFacts Re ReFacts Config Normalizer Vocabulary MarkerFacts.
Import MoreVocabulary StripFacts.

Lemma replace_blank (s : str) :
  has_word s = false -> has_word (replace_char LF SP s) = false.
Proof.
  unfold has_word, replace_char. induction s as [|c s IH]; [reflexivity|].
  simpl. intros H. apply orb_false_iff in H. destruct H as [Hc Hs].
  rewrite (IH Hs), orb_false_r.
  destruct (Ascii.eqb c LF); [reflexivity | exact Hc].
Qed.

Lemma split_blank (s : str) : has_word s = false -> split_from [] s = [].
Proof.
  unfold has_word. induction s as [|c s IH]; [reflexivity|].
  simpl. intros H. apply orb_false_iff in H. destruct H as [Hc Hs].
  apply negb_false_iff in Hc. rewrite Hc. exact (IH Hs).
Qed.

(** The third rule, when the marker rules gave nothing. *)
Lemma first_three_words_rule (raw : str) (user : option str) :
  opt_truthy user = false ->
  (has_word raw = true ->
   first_three_words raw user = Some (three_words raw) /\ three_words raw <> []) /\
  (has_word raw = false -> first_three_words raw user = None).
Proof.
  intros Hu. unfold first_three_words, three_words, split. rewrite Hu. split.
  - intros Hw. apply replace_keeps_words in Hw.
    destruct (@split_from_first (replace_char LF SP raw) [] (or_intror Hw))
      as (t & ts & Hsplit & Ht).
    rewrite Hsplit. split; [reflexivity|].
    pose proof (split_from_words (replace_char LF SP raw) [] eq_refl) as Hall.
    rewrite Hsplit in Hall.
    change (firstn 3 (t :: ts)) with (t :: firstn 2 ts).
    apply join_words. inversion Hall; subst. constructor; [assumption|].
    apply Forall_firstn_words. assumption.
  - intros Hw. apply replace_blank, split_blank in Hw. rewrite Hw. reflexivity.
Qed.

(** The run one of the two searches captures, if any. *)
Lemma reply_user_cases (raw : str) :
  (exists g,
     (search reply_ellipsis raw = Some g \/
      search reply_ellipsis raw = None /\ search reply_plain raw = Some g) /\
     reply_user raw = Some (strip g)) \/
  (search reply_ellipsis raw = None /\ search reply_plain raw = None /\
   reply_user raw = None).
Proof.
  unfold reply_user.
  destruct (search reply_ellipsis raw) as [g1|].
  - left. exists g1. split; [left|]; reflexivity.
  - destruct (search reply_plain raw) as [g2|].
    + left. exists g2. split; [right; split|]; reflexivity.
    + right. repeat split.
Qed.

Lemma captured_single_line (raw g : str) :
  search reply_ellipsis raw = Some g \/
  search reply_ellipsis raw = None /\ search reply_plain raw = Some g ->
  single_line g = true.
Proof.
  intros [H | [_ H]].
  - apply search_ellipsis_run in H.
    destruct H as (pre & m & ws & post & _ & _ & _ & _ & _ & H). exact H.
  - apply search_plain_run in H.
    destruct H as (pre & m & ws & post & _ & _ & _ & _ & _ & H). exact H.
Qed.

Lemma clean_run_clean (g : str) :
  single_line g = true ->
  single_line (clean_run g) = true /\ is_stripped (clean_run g) = true.
Proof.
  intros Hg. unfold clean_run.
  destruct (endswith (strip g) (txt "...")).
  - split.
    + apply (forallb_sub _ g _); [|exact Hg]. intros c Hc.
      apply In_rstrip in Hc. unfold drop_last in Hc.
      apply In_firstn, In_strip in Hc. exact Hc.
    + apply rstrip_is_stripped. unfold drop_last. apply firstn_starts_clean.
      pose proof (strip_is_stripped g) as H. unfold is_stripped in H.
      apply andb_true_iff in H. tauto.
  - split.
    + apply (forallb_sub _ g _); [|exact Hg]. intros c Hc.
      apply In_strip in Hc. exact Hc.
    + apply strip_is_stripped.
Qed.

(** Every way through the rules, for a text past the checks. *)
Lemma filter_shape (cfg : OCRConfig) (raw_text : str) :
  passes_checks cfg raw_text = true ->
  (exists g,
     (search reply_ellipsis (strip raw_text) = Some g \/
      search reply_ellipsis (strip raw_text) = None /\
      search reply_plain (strip raw_text) = Some g) /\
     clean_run g <> [] /\
     _filter_text_with_reply_pattern cfg raw_text = clean_run g) \/
  (has_word (strip raw_text) = true /\
   three_words (strip raw_text) <> [] /\
   _filter_text_with_reply_pattern cfg raw_text = three_words (strip raw_text)) \/
  (has_word (strip raw_text) = false /\
   _filter_text_with_reply_pattern cfg raw_text = txt "NO USER").
Proof.
  intros Hpass. rewrite (filter_past_checks cfg raw_text Hpass).
  assert (Hfall : forall user, opt_truthy user = false ->
            (has_word (strip raw_text) = true /\
             three_words (strip raw_text) <> [] /\
             match first_three_words (strip raw_text) user with
             | Some u => if truthy u then u else txt "NO USER"
             | None => txt "NO USER"
             end = three_words (strip raw_text)) \/
            (has_word (strip raw_text) = false /\
             match first_three_words (strip raw_text) user with
             | Some u => if truthy u then u else txt "NO USER"
             | None => txt "NO USER"
             end = txt "NO USER")).
  { intros user Hu.
    destruct (first_three_words_rule (strip raw_text) user Hu) as [Hyes Hno].
    destruct (has_word (strip raw_text)).
    - left. destruct (Hyes eq_refl) as [-> Hne].
      rewrite (truthy_true Hne). auto.
    - right. rewrite (Hno eq_refl). auto. }
  destruct (reply_user_cases (strip raw_text))
    as [(g & Hsearch & ->) | (_ & _ & ->)].
  - rewrite strip_ellipsis_clean.
    destruct (clean_run g) as [|c u] eqn:Hclean.
    + right. apply Hfall. reflexivity.
    + left. exists g. rewrite Hclean. repeat split; [exact Hsearch | discriminate].
  - right. apply Hfall. reflexivity.
Qed.

Lemma past_checks_has_word (cfg : OCRConfig) (raw_text : str) :
  (1 <= min_text_length cfg)%Z ->
  passes_checks cfg raw_text = true ->
  has_word (strip raw_text) = true.
Proof.
  intros Hmin Hpass. unfold passes_checks in Hpass.
  rewrite !andb_true_iff, !negb_true_iff, Z.ltb_ge in Hpass.
  destruct Hpass as [[_ Hlen] _].
  apply starts_clean_has_word.
  - intros Hnil. rewrite Hnil in Hlen. unfold len in Hlen. simpl in Hlen. lia.
  - pose proof (strip_is_stripped raw_text) as H. unfold is_stripped in H.
    apply andb_true_iff in H. tauto.
Qed.

Lemma reachable_dialog_spin (d : Ui.SettingsDialog) :
  dialog_reachable d -> (1 <= Ui.min_text_length_spin d <= 100)%Z.
Proof.
  induction 1 as [ocr a | d e Hd IH].
  - simpl. unfold Ui.spin_setValue. lia.
  - destruct e; simpl; unfold Ui.spin_setValue; simpl; lia.
Qed.

Lemma reachable_min (cfg : OCRConfig) :
  config_reachable cfg -> (1 <= min_text_length cfg <= 100)%Z.
Proof.
  induction 1 as [| c full_page Hc IH | c a d Hc IH Hd].
  - simpl. lia.
  - destruct full_page; simpl; [|exact IH].
    assert (min_text_length c / 2 <= min_text_length c)%Z
      by (apply Z.div_le_upper_bound; lia).
    lia.
  - simpl. apply reachable_dialog_spin. exact Hd.
Qed.

End TokenFacts.

Module TokenTheorems.
Import PyStr PyStrFacts Re ReFacts Config Normalizer Vocabulary MarkerFacts.
Import App MoreVocabulary StripFacts TokenFacts.

(** X1: the normaliser returns the empty token exactly for the texts that
    fail a check: the empty text, a text whose stripped length is below
    [min_text_length], a text with an excluded pattern.  Past the checks the
    token is never empty. *)
Theorem normalize_empty_iff (cfg : OCRConfig) (raw_text : str) :
  _filter_text_with_reply_pattern cfg raw_text = [] <->
  raw_text = [] \/
  (len (strip raw_text) < min_text_length cfg)%Z \/
  hits_excluded (excluded_patterns cfg) raw_text = true.
Proof.
  split.
  - intros Hempty.
    destruct (passes_checks cfg raw_text) eqn:Hpass.
    + exfalso.
      destruct (filter_shape cfg raw_text Hpass)
        as [(g & _ & Hne & Heq) | [(_ & Hne & Heq) | (_ & Heq)]];
        rewrite Heq in Hempty.
      * exact (Hne Hempty).
      * exact (Hne Hempty).
      * discriminate Hempty.
    + unfold passes_checks in Hpass.
      rewrite !andb_false_iff, !negb_false_iff, Z.ltb_lt in Hpass.
      destruct Hpass as [[H|H]|H]; auto.
      left. destruct raw_text; [reflexivity | discriminate].
  - intros H. unfold _filter_text_with_reply_pattern.
    destruct H as [-> | [H | H]].
    + reflexivity.
    + apply Z.ltb_lt in H. rewrite H, orb_true_r. reflexivity.
    + rewrite H. destruct (_ || _); reflexivity.
Qed.

(** X2: with a minimum length of at least 1, a text past the checks in which
    the marker is nowhere followed by white space and a run of 2 to 60
    characters is normalised to its first three words, joined by single
    blanks. *)
Theorem normalize_without_marker (cfg : OCRConfig) (raw_text : str) :
  (1 <= min_text_length cfg)%Z ->
  passes_checks cfg raw_text = true ->
  (forall g, ~ marker_then_run 2 60 (strip raw_text) g) ->
  _filter_text_with_reply_pattern cfg raw_text = three_words (strip raw_text) /\
  three_words (strip raw_text) <> [].
Proof.
  intros Hmin Hpass Hnone.
  pose proof (past_checks_has_word cfg raw_text Hmin Hpass) as Hword.
  destruct (filter_shape cfg raw_text Hpass)
    as [(g & Hs & _ & _) | [(_ & Hne & Heq) | (Hno & _)]].
  - exfalso. destruct Hs as [H | [_ H]].
    + apply search_ellipsis_run in H. apply (Hnone g). apply dots_run_is_run. exact H.
    + apply search_plain_run in H. exact (Hnone g H).
  - split; assumption.
  - congruence.
Qed.

Lemma normalize_without_marker_witness :
  _filter_text_with_reply_pattern default_ocr (txt " alpha  beta gamma delta ")
    = three_words (strip (txt " alpha  beta gamma delta ")) /\
  three_words (strip (txt " alpha  beta gamma delta ")) <> [].
Proof.
  apply (normalize_without_marker default_ocr (txt " alpha  beta gamma delta ")).
  - simpl. lia.
  - reflexivity.
  - intros g (pre & m & ws & post & Heq & Hm & _).
    assert (Hin : In "r"%char (map lower_char (strip (txt " alpha  beta gamma delta ")))).
    { rewrite Heq, !map_app, !in_app_iff. right. left.
      unfold is_marker in Hm. rewrite Hm. left. reflexivity. }
    vm_compute in Hin.
    repeat (destruct Hin as [Hin|Hin]; [discriminate Hin|]). contradiction.
Defined.

(** X3: whatever the configuration and the raw text, the token has no line
    break (neither LF nor CR) and no white space at either end. *)
Theorem token_is_one_clean_line (cfg : OCRConfig) (raw_text : str) :
  single_line (_filter_text_with_reply_pattern cfg raw_text) = true /\
  strip (_filter_text_with_reply_pattern cfg raw_text)
    = _filter_text_with_reply_pattern cfg raw_text.
Proof.
  destruct (passes_checks cfg raw_text) eqn:Hpass.
  - destruct (filter_shape cfg raw_text Hpass)
      as [(g & Hs & _ & ->) | [(Hw & _ & ->) | (_ & ->)]].
    + destruct (clean_run_clean g (captured_single_line _ g Hs)) as [H1 H2].
      split; [exact H1 | exact (strip_of_stripped _ H2)].
    + pose proof (first_three_words_rule (strip raw_text) None eq_refl) as [_ Hno].
      unfold three_words, split.
      pose proof (split_from_words (replace_char LF SP (strip raw_text)) [] eq_refl)
        as Hall.
      destruct (split_from [] (replace_char LF SP (strip raw_text))) as [|t ts].
      * split; reflexivity.
      * change (firstn 3 (t :: ts)) with (t :: firstn 2 ts).
        assert (Hall' : Forall (fun t => t <> [] /\
                   forallb (fun c => negb (isspace c)) t = true)
                   (t :: firstn 2 ts)).
        { inversion Hall; subst. constructor; [assumption|].
          apply Forall_firstn_words. assumption. }
        destruct (join_words t (firstn 2 ts) Hall') as (_ & J1 & J2 & J3).
        split; [exact J3|]. apply strip_of_stripped.
        unfold is_stripped. rewrite J1, J2. reflexivity.
    + split; reflexivity.
  - assert (Hempty : _filter_text_with_reply_pattern cfg raw_text = []).
    { unfold passes_checks in Hpass. unfold _filter_text_with_reply_pattern.
      destruct (truthy raw_text); [|reflexivity]. simpl in *.
      destruct (len (strip raw_text) <? min_text_length cfg)%Z; [reflexivity|].
      simpl in Hpass. apply negb_false_iff in Hpass. rewrite Hpass. reflexivity. }
    rewrite Hempty. split; reflexivity.
Qed.

(** X4: what the two patterns accept.  The ellipsis-free pattern (line 128)
    is found in a text exactly when somewhere in it the marker, in any
    casing, is followed by white space and a run of 2 to 60 characters other
    than LF and CR; the ellipsis pattern (line 123) exactly when such a run
    is followed by three dots. *)
Theorem patterns_accept (s : str) :
  (search reply_plain s <> None <-> exists g, marker_then_run 2 60 s g) /\
  (search reply_ellipsis s <> None <-> exists g, marker_then_run_dots 2 60 s g).
Proof.
  split; split.
  - destruct (search reply_plain s) as [g|] eqn:H; [|congruence].
    intros _. exists g. apply search_plain_run. exact H.
  - intros H. apply marker_run_found in H. destruct H as [g ->]. discriminate.
  - destruct (search reply_ellipsis s) as [g|] eqn:H; [|congruence].
    intros _. exists g. apply search_ellipsis_run. exact H.
  - intros H. apply ellipsis_run_found in H. destruct H as [g ->]. discriminate.
Qed.

(** X5: [min_text_length] stays between 1 and 100 in every configuration the
    program can reach from the defaults by creating workers (crop or full
    page) and by OK in the settings dialog, whatever was done to the dialog
    before. *)
Theorem min_text_length_in_range (cfg : OCRConfig) :
  config_reachable cfg -> (1 <= min_text_length cfg <= 100)%Z.
Proof. apply reachable_min. Qed.

Lemma min_text_length_in_range_witness :
  (1 <= min_text_length
          (worker_init
             (fst (Ui._save_settings
                     (Ui.apply_edit (Ui._load_current_settings default_ocr
                                       Ui.default_automation) (Ui.set_spin 500))
                     default_ocr Ui.default_automation)) true) <= 100)%Z.
Proof.
  apply min_text_length_in_range.
  apply config_worker, config_saved; [apply config_initial|].
  apply dialog_edited, dialog_created.
Defined.

(** X6: in a configuration the program can reach, the ["NO USER"] fallback
    is never taken: a text past the checks is normalised to a cleaned
    captured run, or to its first three words. *)
Theorem reachable_token_shape (cfg : OCRConfig) (raw_text : str) :
  config_reachable cfg ->
  passes_checks cfg raw_text = true ->
  (exists g,
     (search reply_ellipsis (strip raw_text) = Some g \/
      search reply_ellipsis (strip raw_text) = None /\
      search reply_plain (strip raw_text) = Some g) /\
     _filter_text_with_reply_pattern cfg raw_text = clean_run g) \/
  _filter_text_with_reply_pattern cfg raw_text = three_words (strip raw_text).
Proof.
  intros Hreach Hpass.
  pose proof (reachable_min cfg Hreach) as [Hmin _].
  pose proof (past_checks_has_word cfg raw_text Hmin Hpass) as Hword.
  destruct (filter_shape cfg raw_text Hpass)
    as [(g & Hs & _ & Heq) | [(_ & _ & Heq) | (Hno & _)]].
  - left. exists g. split; assumption.
  - right. exact Heq.
  - congruence.
Qed.

Lemma reachable_token_shape_witness :
  (exists g,
     (search reply_ellipsis (strip (txt "Reply to zoe99...")) = Some g \/
      search reply_ellipsis (strip (txt "Reply to zoe99...")) = None /\
      search reply_plain (strip (txt "Reply to zoe99...")) = Some g) /\
     _filter_text_with_reply_pattern (worker_init default_ocr true)
       (txt "Reply to zoe99...") = clean_run g) \/
  _filter_text_with_reply_pattern (worker_init default_ocr true)
    (txt "Reply to zoe99...") = three_words (strip (txt "Reply to zoe99...")).
Proof.
  apply (reachable_token_shape (worker_init default_ocr true)).
  - apply config_worker, config_initial.
  - reflexivity.
Defined.

End TokenTheorems.

(* ================================================================== *)
(** ** The worker and the loop as a whole *)
(* ================================================================== *)

Module LoopMoreFacts.
Import PyStr PyStrFacts Py Config Normalizer Qt WebEngine Processor App.
Import Vocabulary MoreVocabulary ProcessorFacts.

Lemma find_none_existsb (P : str -> bool) (l : list str) :
  find P l = None <-> existsb P l = false.
Proof.
  induction l as [|a l IH]; simpl; [tauto|].
  destruct (P a); simpl; [split; discriminate | exact IH].
Qed.

(** What [validate_text_quality] accepts. *)
Lemma validate_accepts (cfg : OCRConfig) (text : str) :
  fst (validate_text_quality cfg text) = true <->
  text <> [] /\ (min_text_length cfg <= len text)%Z /\
  hits_excluded (excluded_patterns cfg) text = false.
Proof.
  unfold validate_text_quality, hits_excluded.
  destruct text as [|c text]; simpl.
  - split; [discriminate | intros [H _]; congruence].
  - destruct (len (c :: text) <? min_text_length cfg)%Z eqn:Hlen; simpl.
    + apply Z.ltb_lt in Hlen. split; [discriminate | intros (_ & H & _); lia].
    + apply Z.ltb_ge in Hlen.
      destruct (find _ (excluded_patterns cfg)) as [p|] eqn:Hfind; simpl.
      * split; [discriminate|]. intros (_ & _ & H).
        apply find_none_existsb in H. congruence.
      * apply find_none_existsb in Hfind. split; [|reflexivity].
        intros _. repeat split; [discriminate | exact Hlen | exact Hfind].
Qed.

Section Worker.
Context {E : Collaborators}.

(** The worker by cases. *)
Lemma run_cases (cfg : OCRConfig) (flag : bool) (pm : pixmap) :
  (exists e, qpixmap_to_pil pm = Raised e /\
     run cfg flag pm =
       Returned (if flag then ocr_completed USERNAME_OCR_FAIL pm
                 else ocr_failed (txt "OCR processing failed: " ++ e))) \/
  (exists img text, qpixmap_to_pil pm = Returned img /\
     extract_text cfg img = Returned text /\
     run cfg flag pm =
       Returned (if flag
                 then if truthy (strip text) then ocr_completed text pm
                      else ocr_completed USERNAME_OCR_FAIL pm
                 else if fst (validate_text_quality cfg text)
                      then ocr_completed text pm
                      else ocr_failed (snd (validate_text_quality cfg text)))).
Proof.
  unfold run, try_except, bind.
  destruct (qpixmap_to_pil pm) as [img|e].
  - right. destruct (extract_text_returns cfg img) as [text Ht].
    exists img, text. rewrite Ht. split; [reflexivity|]. split; [reflexivity|].
    destruct (validate_text_quality cfg text) as [is_valid reason]. simpl.
    destruct flag; [destruct (truthy (strip text))|destruct is_valid]; reflexivity.
  - left. exists e. split; [reflexivity|]. destruct flag; reflexivity.
Qed.

Lemma can_capture_run_ocr (screen : pixmap) (w : MainWindow) :
  can_capture w = true ->
  _run_ocr screen w =
    (set_ocr w (worker_init (ocr w) (full_page w)),
     [worker_start (captured w screen) (full_page w)]).
Proof.
  unfold can_capture, _run_ocr, captured, capture_crop_area, rect_truthy.
  destruct (full_page w); simpl; [reflexivity|].
  destruct (crop_rect (web_view w)) as [r|]; [|discriminate].
  intros H. apply andb_true_iff in H. destruct H as [Hv Hn].
  apply negb_true_iff in Hn. rewrite Hv, Hn. reflexivity.
Qed.

(** An injection a handler asks for carries the stored text, and that text
    is not empty. *)
Lemma handle_injects_stored_text (screen : pixmap) (w : MainWindow) (ev : event)
    (t : str) (cb : option js_callback) :
  In (runJavaScript_inject t cb) (snd (handle screen w ev)) ->
  t = current_ocr_text w /\ t <> [].
Proof.
  assert (Hrun : forall w0, In (runJavaScript_inject t cb) (snd (_run_ocr screen w0))
                            -> False).
  { intros w0. unfold _run_ocr.
    destruct (negb (full_page w0) && _); simpl; [intros [H|[]]; discriminate H|].
    destruct (if full_page w0 then _ else _); simpl; intros [H|[]]; discriminate H. }
  assert (Hnext : forall w0, In (runJavaScript_inject t cb)
                               (snd (_loop_proceed_to_next w0)) -> False).
  { intros w0. unfold _loop_proceed_to_next.
    destruct (negb (loop_active w0)); simpl; [tauto|].
    destruct (loop_active w0); simpl; intuition discriminate. }
  assert (Hwrite : forall l, truthy (current_ocr_text w) = true ->
            In (runJavaScript_inject t cb)
               [runJavaScript_inject (current_ocr_text w) l] ->
            t = current_ocr_text w /\ t <> []).
  { intros l Htr [H|[]]. injection H as <- _. split; [reflexivity|].
    intros Hnil. rewrite Hnil in Htr. discriminate. }
  destruct ev as [| | | | | [text pm | msg] | [ | | ] | [ | ] r]; simpl.
  - unfold _start_loop, _automation_step.
    destruct (loop_active w); simpl; [tauto|].
    destruct (negb (full_page w) && _); simpl; [intros [H|[]]; discriminate H|].
    intros H. exfalso. exact (Hrun _ H).
  - tauto.
  - intros H. exfalso. exact (Hrun _ H).
  - unfold _do_write. destruct (truthy (current_ocr_text w)) eqn:Htr; simpl;
      [|tauto]. apply Hwrite. reflexivity.
  - unfold _proceed_to_next. simpl.
    destruct (loop_active w); simpl; intuition discriminate.
  - unfold _on_ocr_completed. simpl.
    destruct (loop_active w && truthy text); simpl; [intuition discriminate|].
    destruct (loop_active w && negb (truthy text)); simpl; intuition discriminate.
  - unfold _on_ocr_failed. simpl.
    destruct (loop_active w); simpl; intuition discriminate.
  - unfold _loop_write_text, _after_write_injection.
    destruct (loop_active w) eqn:Hon; simpl; [|tauto].
    destruct (truthy (current_ocr_text w)) eqn:Htr; simpl.
    + apply Hwrite. reflexivity.
    + intros H. exfalso. exact (Hnext _ H).
  - intros H. exfalso. exact (Hnext _ H).
  - unfold _automation_step. destruct (negb (loop_active w)); simpl; [tauto|].
    intros H. exfalso. exact (Hrun _ H).
  - unfold _after_write_injection. destruct (loop_active w); simpl; [|tauto].
    intros H. exfalso. exact (Hnext _ H).
  - tauto.
Qed.

End Worker.
End LoopMoreFacts.

Module LoopTheorems.
Import PyStr PyStrFacts Py Config Normalizer Qt WebEngine Processor App.
Import Vocabulary MoreVocabulary ProcessorFacts LoopMoreFacts.

Section Worker.
Context {E : Collaborators}.

(** X7: whatever the engine and the conversion do, [OCRWorkerThread.run]
    raises nothing and emits one signal; an [ocr_completed] carries the
    worker's own pixmap and a text that is not empty, in and out of the
    loop; an [ocr_failed] is emitted only when the loop is not active. *)
Theorem worker_emits_one_signal (cfg : OCRConfig) (flag : bool) (pm : pixmap) :
  exists s,
    run cfg flag pm = Returned s /\
    (forall text pm', s = ocr_completed text pm' -> text <> [] /\ pm' = pm) /\
    (forall msg, s = ocr_failed msg -> flag = false).
Proof.
  destruct (run_cases cfg flag pm)
    as [(e & _ & ->) | (img & text & _ & _ & ->)]; eexists; (split; [reflexivity|]).
  - destruct flag; split; intros ? ?; try discriminate.
    + intros [= <- <-]. split; [discriminate | reflexivity].
    + reflexivity.
  - destruct flag.
    + destruct (truthy (strip text)) eqn:Hs; split; intros ? ?; try discriminate.
      * intros [= <- <-]. split; [|reflexivity]. intros ->. discriminate Hs.
      * intros [= <- <-]. split; [discriminate | reflexivity].
    + destruct (fst (validate_text_quality cfg text)) eqn:Hv;
        split; intros ? ?; try discriminate; try reflexivity.
      intros [= <- <-]. split; [|reflexivity].
      apply validate_accepts in Hv. tauto.
Qed.

(** X8: outside the loop, the text of an [ocr_completed] is what
    [extract_text] returned and has passed [validate_text_quality]: it has at
    least [min_text_length] characters and holds no excluded pattern. *)
Theorem manual_completed_is_valid (cfg : OCRConfig) (pm pm' : pixmap) (text : str) :
  run cfg false pm = Returned (ocr_completed text pm') ->
  (exists img, qpixmap_to_pil pm = Returned img /\
               extract_text cfg img = Returned text) /\
  (min_text_length cfg <= len text)%Z /\
  hits_excluded (excluded_patterns cfg) text = false.
Proof.
  intros Hrun.
  destruct (run_cases cfg false pm)
    as [(e & _ & Heq) | (img & t & Hpil & Hext & Heq)];
    rewrite Heq in Hrun; [discriminate|].
  destruct (fst (validate_text_quality cfg t)) eqn:Hv; [|discriminate].
  injection Hrun as <- _. apply validate_accepts in Hv.
  split; [exists img; split; assumption | tauto].
Qed.

(** X9: no handler ever asks for the injection of an empty text: in the
    effects of any sequence of events, from any window, every injection
    carries a text that is not empty. *)
Theorem injection_never_empty (w : MainWindow) (evs : list (pixmap * event))
    (t : str) (cb : option js_callback) :
  In (runJavaScript_inject t cb) (snd (handle_all w evs)) -> t <> [].
Proof.
  revert w. induction evs as [|[screen ev] evs IH]; intros w; simpl; [tauto|].
  destruct (handle screen w ev) as [w1 e1] eqn:H1.
  destruct (handle_all w1 evs) as [w2 e2] eqn:H2. simpl.
  rewrite in_app_iff. intros [H|H].
  - apply (handle_injects_stored_text screen w ev t cb). rewrite H1. exact H.
  - apply (IH w1). rewrite H2. exact H.
Qed.

(** X10: one cycle of an active loop that can capture.  The cycle step
    starts a worker on the capture; a completed OCR with a text arms the
    write timer with the save delay; the write step injects that text; the
    script's result, whatever it is, leads to navigation and arms the next
    cycle with the image-load delay.  The window is then as before, with
    the stored text cleared and [min_text_length] as the worker's creation
    left it, so the next cycle runs the same way. *)
Theorem loop_cycle (w : MainWindow) (s1 s2 s3 s4 pm' : pixmap) (t : str)
    (r : js_value) :
  loop_active w = true ->
  can_capture w = true ->
  t <> [] ->
  let w' := set_current_ocr_text
              (set_ocr w (worker_init (ocr w) (full_page w))) [] in
  handle_all w
    [(s1, timer_fired slot_automation_step);
     (s2, worker_signal (ocr_completed t pm'));
     (s3, timer_fired slot_loop_write_text);
     (s4, js_finished cb_after_write_injection r)]
  = (w',
     [worker_start (captured w s1) (full_page w);
      singleShot (description_save_delay w) slot_loop_write_text;
      runJavaScript_inject t (Some cb_after_write_injection);
      runJavaScript_navigate;
      singleShot (image_load_delay w) slot_automation_step]) /\
  loop_active w' = true /\ can_capture w' = true.
Proof.
  intros Hon Hcap Ht. cbv zeta. apply truthy_true in Ht. split.
  - simpl. unfold _automation_step. rewrite Hon. simpl.
    rewrite (can_capture_run_ocr s1 w Hcap).
    unfold _on_ocr_completed, _loop_write_text, _after_write_injection,
      _loop_proceed_to_next.
    repeat (progress (simpl; rewrite ?Hon, ?Ht)). reflexivity.
  - split; [exact Hon | exact Hcap].
Qed.

(** X11: the start button.  On an active loop it does nothing, so no second
    worker is started; without full-page mode and without a valid crop it
    only warns and the loop stays off; otherwise it sets the flag and runs
    the first cycle step, which starts a worker on the capture. *)
Theorem start_loop_guard (screen : pixmap) (w : MainWindow) :
  (loop_active w = true -> _start_loop screen w = (w, [])) /\
  (loop_active w = false -> full_page w = false ->
   rect_truthy (crop_rect (web_view w)) = false ->
   _start_loop screen w = (w, [show_warning (txt "No Crop Area")])) /\
  (loop_active w = false -> can_capture w = true ->
   _start_loop screen w =
     (set_ocr (set_loop_state (set_loop_active w true) (txt "OCR"))
        (worker_init (ocr w) (full_page w)),
      [worker_start (captured w screen) (full_page w)])).
Proof.
  unfold _start_loop. repeat split.
  - intros ->. reflexivity.
  - intros -> -> ->. reflexivity.
  - intros Hoff Hcap. rewrite Hoff.
    assert (Hok : negb (full_page w)
                  && negb (rect_truthy (crop_rect (web_view w))) = false).
    { unfold can_capture in Hcap. destruct (full_page w); [reflexivity|].
      simpl in *. destruct (crop_rect (web_view w)) as [q|]; [|discriminate].
      simpl. apply andb_true_iff in Hcap. destruct Hcap as [-> _]. reflexivity. }
    rewrite Hok. unfold _automation_step.
    cbn [loop_active set_loop_state set_loop_active negb].
    rewrite (can_capture_run_ocr screen
               (set_loop_state (set_loop_active w true) (txt "OCR")) Hcap).
    reflexivity.
Qed.

(** X12: navigation forgets the OCR result: after the manual Next button,
    and after the navigation step of the loop, the Write button injects
    nothing until a new result is stored. *)
Theorem no_write_after_navigation (w : MainWindow) :
  snd (_do_write (fst (_proceed_to_next w))) = [] /\
  (loop_active w = true ->
   snd (_do_write (fst (_loop_proceed_to_next w))) = []).
Proof.
  split.
  - unfold _proceed_to_next. simpl. destruct (loop_active w); reflexivity.
  - intros Hon. unfold _loop_proceed_to_next. rewrite Hon. simpl.
    rewrite Hon. reflexivity.
Qed.

End Worker.

Lemma worker_emits_one_signal_witness :
  exists s,
    @run engine_missing default_ocr false tt = Returned s /\
    (forall text pm', s = ocr_completed text pm' -> text <> [] /\ pm' = tt) /\
    (forall msg, s = ocr_failed msg -> false = false).
Proof. apply (@worker_emits_one_signal engine_missing default_ocr false tt). Defined.

Lemma manual_completed_is_valid_witness :
  (exists img, @qpixmap_to_pil reads_zoe tt = Returned img /\
               @extract_text reads_zoe default_ocr img = Returned (txt "zoe99")) /\
  (min_text_length default_ocr <= len (txt "zoe99"))%Z /\
  hits_excluded (excluded_patterns default_ocr) (txt "zoe99") = false.
Proof.
  apply (@manual_completed_is_valid reads_zoe default_ocr tt tt (txt "zoe99")).
  reflexivity.
Defined.

Lemma injection_never_empty_witness : txt "zoe99" <> [].
Proof.
  apply (@injection_never_empty reads_zoe
           (set_current_ocr_text looping_window (txt "zoe99"))
           [(tt, @timer_fired reads_zoe slot_loop_write_text)]
           (txt "zoe99") (Some cb_after_write_injection)).
  left. reflexivity.
Defined.

Lemma loop_cycle_witness :
  @handle_all reads_zoe looping_window
    [(tt, timer_fired slot_automation_step);
     (tt, worker_signal (@ocr_completed reads_zoe (txt "zoe99") tt));
     (tt, timer_fired slot_loop_write_text);
     (tt, js_finished cb_after_write_injection (js_bool false))]
  = (set_current_ocr_text
       (set_ocr looping_window (worker_init (ocr looping_window) false)) [],
     [@worker_start reads_zoe (@captured reads_zoe looping_window tt) false;
      @singleShot reads_zoe 1000 slot_loop_write_text;
      @runJavaScript_inject reads_zoe (txt "zoe99") (Some cb_after_write_injection);
      @runJavaScript_navigate reads_zoe;
      @singleShot reads_zoe 2000 slot_automation_step]).
Proof.
  apply (@loop_cycle reads_zoe looping_window tt tt tt tt tt (txt "zoe99")
           (js_bool false)); [reflexivity | reflexivity | discriminate].
Defined.

Lemma start_loop_guard_witness :
  @_start_loop reads_zoe tt looping_window = (looping_window, []).
Proof.
  apply (@start_loop_guard reads_zoe tt looping_window). reflexivity.
Defined.

Lemma no_write_after_navigation_witness :
  snd (@_do_write reads_zoe (fst (@_loop_proceed_to_next reads_zoe looping_window)))
    = [].
Proof.
  apply (@no_write_after_navigation reads_zoe looping_window). reflexivity.
Defined.

End LoopTheorems.

(* ================================================================== *)
(** ** Configuration, crop memory, URL bar, script text *)
(* ================================================================== *)

Module SurroundingsFacts.
Import PyStr PyStrFacts PyStrMore Py Config Qt WebEngine App Ui Scripts.
Import Vocabulary MoreVocabulary LocationFacts StripFacts.

Lemma wrap_is_int (z : Z) : fits_int (wrap z) = true.
Proof.
  unfold fits_int, int_min, int_max, wrap.
  pose proof (Z.mod_pos_bound (z + 2 ^ 31) (2 ^ 32) eq_refl) as H.
  apply andb_true_iff. split; apply Z.leb_le; lia.
Qed.

(** The far corner comes back from the width Qt computes. *)
Lemma wrap_corner (a b : Z) :
  fits_int b = true -> wrap (a + wrap (b - a + 1) - 1) = b.
Proof.
  intros H. rewrite <- (wrap_fits b H) at 2. unfold wrap. f_equal.
  replace (a + ((b - a + 1 + 2 ^ 31) mod 2 ^ 32 - 2 ^ 31) - 1 + 2 ^ 31)%Z
    with ((b - a + 1 + 2 ^ 31) mod 2 ^ 32 + (a - 1))%Z by lia.
  rewrite Zplus_mod_idemp_l. f_equal. lia.
Qed.

Lemma rect_rebuilt (r : QRect) :
  rect_fits r = true -> make_rect (x r) (y r) (width r) (height r) = r.
Proof.
  unfold rect_fits. rewrite !andb_true_iff. intros [[[_ _] Hx2] Hy2].
  destruct r as [a b c d]. unfold make_rect, x, y, width, height. simpl in *.
  rewrite (wrap_corner a c Hx2), (wrap_corner b d Hy2). reflexivity.
Qed.

Lemma halve_step (m : Z) (n : nat) :
  Z.max 1 (Z.max 1 (m / 2 ^ Z.of_nat n) / 2) = Z.max 1 (m / 2 ^ Z.of_nat (S n)).
Proof.
  rewrite Nat2Z.inj_succ, Z.pow_succ_r by lia.
  assert (Hpos : (0 < 2 ^ Z.of_nat n)%Z) by (apply Z.pow_pos_nonneg; lia).
  rewrite (Z.mul_comm 2), <- Z.div_div by lia.
  destruct (Z.le_gt_cases (m / 2 ^ Z.of_nat n) 1) as [Hle|Hgt].
  - rewrite (Z.max_l 1 (m / 2 ^ Z.of_nat n)) by lia.
    assert (m / 2 ^ Z.of_nat n / 2 < 1)%Z
      by (apply Z.div_lt_upper_bound; lia).
    change (1 / 2)%Z with 0%Z. lia.
  - rewrite (Z.max_r 1 (m / 2 ^ Z.of_nat n)) by lia. reflexivity.
Qed.

Lemma full_page_workers_fields (n : nat) (cfg : OCRConfig) :
  tesseract_config (full_page_workers n cfg) = tesseract_config cfg /\
  excluded_patterns (full_page_workers n cfg) = excluded_patterns cfg.
Proof.
  induction n as [|n [IH1 IH2]]; [split; reflexivity|].
  unfold full_page_workers in *. simpl. auto.
Qed.


Lemma js_text_js (text : str) :
  forallb (fun c => negb (Ascii.eqb c CR)) text = true ->
  js_single_quoted (text_js text) = Some (replace_char LF SP text).
Proof.
  unfold text_js, replace_with, replace_char.
  induction text as [|c text IH]; [reflexivity|].
  intros H.
  destruct c as [[] [] [] [] [] [] [] []];
    cbn in H; try discriminate H;
    cbn; cbn in IH; rewrite (IH H); reflexivity.
Qed.

Lemma js_text_escaped (text : str) :
  js_single_quoted (text_escaped text) = Some text.
Proof.
  unfold text_escaped, replace_with.
  induction text as [|c text IH]; [reflexivity|].
  destruct c as [[] [] [] [] [] [] [] []];
    cbn; cbn in IH; rewrite IH; reflexivity.
Qed.

End SurroundingsFacts.

Module SurroundingsTheorems.
Import PyStr PyStrFacts PyStrMore Py Config Qt WebEngine App Ui Scripts.
Import Vocabulary MoreVocabulary LocationFacts StripFacts SurroundingsFacts.

(** X13: every full-page worker halves the global [min_text_length], down
    to 1: from a minimum of at least 1, after [n] such workers it is
    [max(1, m // 2^n)], hence 1 as soon as [m < 2^(n+1)]; the engine options
    and the excluded patterns stay as they were. *)
Theorem full_page_halving (cfg : OCRConfig) (n : nat) :
  (1 <= min_text_length cfg)%Z ->
  min_text_length (full_page_workers n cfg)
    = Z.max 1 (min_text_length cfg / 2 ^ Z.of_nat n) /\
  ((min_text_length cfg < 2 ^ Z.of_nat (S n))%Z ->
   min_text_length (full_page_workers n cfg) = 1%Z) /\
  tesseract_config (full_page_workers n cfg) = tesseract_config cfg /\
  excluded_patterns (full_page_workers n cfg) = excluded_patterns cfg.
Proof.
  intros Hmin.
  assert (Hform : min_text_length (full_page_workers n cfg)
                  = Z.max 1 (min_text_length cfg / 2 ^ Z.of_nat n)).
  { induction n as [|n IH].
    - simpl. rewrite Z.div_1_r. lia.
    - rewrite <- halve_step, <- IH. reflexivity. }
  split; [exact Hform|]. split; [|apply full_page_workers_fields].
  intros Hsmall. rewrite Hform.
  rewrite Nat2Z.inj_succ, Z.pow_succ_r in Hsmall by lia.
  assert (0 < 2 ^ Z.of_nat n)%Z by (apply Z.pow_pos_nonneg; lia).
  assert (min_text_length cfg / 2 ^ Z.of_nat n < 2)%Z
    by (apply Z.div_lt_upper_bound; lia).
  lia.
Qed.

Lemma full_page_halving_witness :
  min_text_length (full_page_workers 2 default_ocr) = 1%Z.
Proof.
  apply (full_page_halving default_ocr 2); simpl; lia.
Defined.

(** X14: the crop memory through a selection.  With [remember_location] set,
    a selected rectangle whose corners are C [int]s and whose width and
    height are positive is saved by [_on_crop_selected] and restored, the
    same rectangle, by [_restore_last_crop_location]; a rectangle of width
    or height 0 or less is saved too but never restored. *)
Theorem crop_selection_round_trip (loc : OCRLocationConfig) (r : QRect)
    (v : AutomationWebView) :
  (remember_location loc = true -> rect_fits r = true ->
   (0 < width r)%Z -> (0 < height r)%Z ->
   fst (_on_crop_selected loc r) = {| crop_rect := Some r |} /\
   _restore_last_crop_location (snd (_on_crop_selected loc r)) v
     = {| crop_rect := Some r |}) /\
  ((width r <= 0)%Z \/ (height r <= 0)%Z ->
   _restore_last_crop_location (snd (_on_crop_selected loc r)) v = v).
Proof.
  split.
  - intros Hrem Hfit Hw Hh. split; [reflexivity|].
    unfold _restore_last_crop_location, _on_crop_selected, _save_crop_location,
      has_saved_location, save_location, new_QRect. simpl.
    apply Z.ltb_lt in Hw, Hh. rewrite Hrem, Hw, Hh. simpl.
    unfold rect_fits in Hfit. rewrite !andb_true_iff in Hfit.
    destruct Hfit as [[[Hx1 Hy1] Hx2] Hy2].
    unfold x, y. rewrite Hx1, Hy1. unfold width, height.
    rewrite !wrap_is_int. simpl.
    pose proof (rect_rebuilt r) as Hre. unfold x, y, width, height in Hre.
    rewrite Hre; [reflexivity|].
    unfold rect_fits. rewrite Hx1, Hy1, Hx2, Hy2. reflexivity.
  - intros Hbad.
    unfold _restore_last_crop_location, _on_crop_selected, _save_crop_location,
      has_saved_location, save_location. simpl.
    assert (Hoff : ((0 <? width r) && (0 <? height r))%Z = false).
    { apply andb_false_iff. rewrite !Z.ltb_ge. tauto. }
    rewrite <- andb_assoc, Hoff, andb_false_r. reflexivity.
Qed.

Lemma crop_selection_round_trip_witness :
  _restore_last_crop_location
    (snd (_on_crop_selected default_location (make_rect 258 2218 584 120)))
    fresh_view
  = {| crop_rect := Some (make_rect 258 2218 584 120) |}.
Proof.
  apply (crop_selection_round_trip default_location
           (make_rect 258 2218 584 120) fresh_view); reflexivity.
Defined.


(** X16: the URL label never shows more than 50 characters: a URL of at
    most 50 is shown whole, a longer one as its first 47 characters and
    three dots, 50 in all. *)
Theorem url_label_bounded (url : str) :
  (len (update_url url) <= 50)%Z /\
  ((len url <= 50)%Z -> update_url url = url) /\
  ((50 < len url)%Z ->
   update_url url = firstn 47 url ++ txt "..." /\ len (update_url url) = 50%Z).
Proof.
  unfold update_url, len.
  destruct (50 <? Z.of_nat (List.length url))%Z eqn:Hlong.
  - apply Z.ltb_lt in Hlong.
    assert (Hlen : List.length (firstn 47 url ++ txt "...") = 50%nat).
    { rewrite length_app, length_firstn.
      change (List.length (txt "...")) with 3%nat. lia. }
    rewrite Hlen. repeat split; try lia.
  - apply Z.ltb_ge in Hlong. repeat split; try lia.
Qed.

Lemma url_label_bounded_witness :
  update_url (txt "http://localhost:2283") = txt "http://localhost:2283".
Proof.
  apply (url_label_bounded (txt "http://localhost:2283")).
  vm_compute. discriminate.
Defined.



(** X18: the sanitiser of [get_input_injection_script].  For a text without
    CR, the sanitised text put between single quotes is a well-formed
    string literal (no bare quote, no line break, no dangling backslash),
    and the string it denotes is the text with every LF replaced by a
    blank. *)
Theorem text_js_round_trip (text : str) :
  forallb (fun c => negb (Ascii.eqb c CR)) text = true ->
  js_single_quoted (text_js text) = Some (replace_char LF SP text).
Proof. apply js_text_js. Qed.

Lemma text_js_round_trip_witness :
  js_single_quoted (text_js (txt "it's a \ path"))
    = Some (replace_char LF SP (txt "it's a \ path")).
Proof. apply text_js_round_trip. reflexivity. Defined.

(** X19: the escaping of [_inject_text_and_save].  For every text, the
    escaped text put between single quotes is a well-formed string literal
    and denotes the text itself: backslashes, both quotes, LF and CR come
    back unchanged. *)
Theorem text_escaped_round_trip (text : str) :
  js_single_quoted (text_escaped text) = Some text.
Proof. apply js_text_escaped. Qed.

End SurroundingsTheorems.
